(** * scripts/import_price_history.py: the price-history import, embedded

    The script fetches the top coins from a market-ranking provider, upserts
    their metadata into the table [cryptocurrencies], fetches candles for
    every symbol and timeframe from the exchange and inserts them into the
    table [price_history], and commits once at the end.

    The embedding is a state-and-exception monad over the script's global
    state: the list [symbols], the open database transaction, the committed
    database, and a log of the effects performed (requests, prints, sleeps,
    statements, commit).  Python's builtins and the database schema are not
    part of the repository; they are the fields of the class [Host]. *)

From Stdlib Require Import Ascii String.
From stdpp Require Import gmap strings list fin_maps.

Set Warnings "-register-all".

Open Scope Z_scope.
Open Scope string_scope.

(** ** Python values and exceptions *)

(** What [response.json()] returns.  [JObj] lists the items of a dict in
    insertion order (its keys are pairwise distinct, as in a Python dict);
    [F] is the type of Python floats. *)
Inductive json (F : Type) : Type :=
  | JNull
  | JBool (b : bool)
  | JInt (n : Z)
  | JFloat (x : F)
  | JStr (s : string)
  | JArr (items : list (json F))
  | JObj (items : list (string * json F)).
Arguments JNull {F}.
Arguments JBool {F} b.
Arguments JInt {F} n.
Arguments JFloat {F} x.
Arguments JStr {F} s.
Arguments JArr {F} items.
Arguments JObj {F} items.

Inductive exn : Type :=
  | TypeError
  | KeyError
  | IndexError
  | AttributeError
  | ValueError
  | OverflowError
  | JSONDecodeError
  | ConnectionError
  | DatabaseError.

Inductive result (A : Type) : Type :=
  | Ok (a : A)
  | Raise (e : exn).
Arguments Ok {A} a.
Arguments Raise {A} e.

(** An HTTP exchange of [requests.get]: the provider cannot be reached (the
    call raises), or it answers with a status code and a body; [body = None]
    is a body that [.json()] cannot decode. *)
Inductive http (F : Type) : Type :=
  | Unreachable
  | Response (status_code : Z) (body : option (json F)).
Arguments Unreachable {F}.
Arguments Response {F} status_code body.

(** The two SQL statements of the script, with their parameter tuples. *)
Inductive stmt (F T : Type) : Type :=
  | UpsertCrypto (symbol : string) (name : json F) (market_type : string)
                 (image_url : json F)
  | InsertPrice (symbol timeframe : string)
                (open_price high_price low_price close_price volume : F)
                (timestamp created_at : T).
Arguments UpsertCrypto {F T} symbol name market_type image_url.
Arguments InsertPrice {F T} symbol timeframe open_price high_price low_price
  close_price volume timestamp created_at.

(** ** What the script takes from outside the repository *)

Class Host : Type := {
  (** Python's [float] and [datetime] *)
  pyfloat : Type;
  datetime : Type;
  datetime_eq_dec :: EqDecision datetime;
  datetime_countable :: Countable datetime;
  (** [str.upper] *)
  str_upper : string -> string;
  (** [float(x)] *)
  float_of : json pyfloat -> result pyfloat;
  (** [datetime.utcfromtimestamp(x / 1000)] *)
  utcfromtimestamp_ms : json pyfloat -> result datetime;
  (** the columns of [cryptocurrencies] that the INSERT does not name, and
      the defaults a new row gets for them *)
  extra : Type;
  extra_default : extra;
  (** the statements the store refuses, whatever the tables hold (a type or
      constraint violation of a schema that is not in the repository):
      [cursor.execute] raises *)
  rejects : stmt pyfloat datetime -> bool;
}.

Section Script.
Context `{H : Host}.

Abbreviation value := (json pyfloat).
Abbreviation statement := (stmt pyfloat datetime).

(** ** The store *)

Record crypto_row : Type := CryptoRow {
  name : value;
  market_type : string;
  image_url : value;
  active : bool;
  others : extra;
}.

Record price_row : Type := PriceRow {
  open_price : pyfloat;
  high_price : pyfloat;
  low_price : pyfloat;
  close_price : pyfloat;
  volume : pyfloat;
  created_at : datetime;
}.

(** [cryptocurrencies] is keyed by [symbol], the conflict target of the
    upsert. *)
(** Modelled from the spec: the schema of [price_history] is not in the
    repository; the spec gives the key its [ON CONFLICT DO NOTHING] guards:
    the tuple (symbol, timeframe, timestamp) is unique. *)
Record db : Type := Db {
  cryptocurrencies : gmap string crypto_row;
  price_history : gmap (string * string * datetime) price_row;
}.

(** One accepted statement on the tables. *)
Definition exec (q : statement) (d : db) : db :=
  match q with
  | UpsertCrypto sym nm mt img =>
      let row :=
        match cryptocurrencies d !! sym with
        | None => CryptoRow nm mt img true extra_default
        | Some r => CryptoRow nm (market_type r) img true (others r)
        end in
      Db (<[sym := row]> (cryptocurrencies d)) (price_history d)
  | InsertPrice sym tf o h l c v ts cr =>
      match price_history d !! (sym, tf, ts) with
      | Some _ => d
      | None =>
          Db (cryptocurrencies d)
             (<[(sym, tf, ts) := PriceRow o h l c v cr]> (price_history d))
      end
  end.

(** ** The providers

    A world fixes what each provider answers to each request; a request made
    twice in a run gets the same answer twice. *)

Inductive request : Type :=
  | Markets
  | Klines (symbol interval : string) (limit : Z).

Record world : Type := World {
  coingecko : http pyfloat;
  binance : string -> string -> Z -> http pyfloat;
}.

Definition answer (w : world) (rq : request) : http pyfloat :=
  match rq with
  | Markets => coingecko w
  | Klines s i l => binance w s i l
  end.

(** ** State, effects and the monad *)

Inductive event : Type :=
  | Requested (rq : request)
  | Printed (line : string)
  | Slept (ms : Z)
  | Executed (q : statement)
  | Committed.

Record state : Type := State {
  symbols : list string;
  txn : db;
  stored : db;
  log : list event;
}.

Definition M (A : Type) : Type := state -> result A * state.

#[export] Instance M_ret : MRet M := fun A a s => (Ok a, s).
#[export] Instance M_bind : MBind M := fun A B f m s =>
  match m s with
  | (Ok a, s') => f a s'
  | (Raise e, s') => (Raise e, s')
  end.

Definition lift {A} (r : result A) : M A := fun s => (r, s).

Definition emit (e : event) : M unit := fun s =>
  (Ok tt, State (symbols s) (txn s) (stored s) (log s ++ [e])).

Fixpoint for_ {A} (l : list A) (body : A -> M unit) : M unit :=
  match l with
  | [] => mret tt
  | x :: l' => body x ≫= fun _ => for_ l' body
  end.

(** ** Python's operations on decoded JSON *)

Fixpoint assoc {A} (k : string) (kvs : list (string * A)) : option A :=
  match kvs with
  | [] => None
  | (k', v) :: kvs' => if String.eqb k k' then Some v else assoc k kvs'
  end.

(** [for x in v] *)
Definition iter (v : value) : result (list value) :=
  match v with
  | JArr l => Ok l
  | JObj kvs => Ok (map (fun kv => JStr (fst kv)) kvs)
  | JStr s => Ok (map (fun c => JStr (String c EmptyString)) (list_ascii_of_string s))
  | _ => Raise TypeError
  end.

(** [v[k]] for a string [k] *)
Definition getitem (v : value) (k : string) : result value :=
  match v with
  | JObj kvs => match assoc k kvs with Some x => Ok x | None => Raise KeyError end
  | _ => Raise TypeError
  end.

(** [v[i]] for an integer [i >= 0] *)
Definition getindex (v : value) (i : nat) : result value :=
  match v with
  | JArr l => match l !! i with Some x => Ok x | None => Raise IndexError end
  | JStr s =>
      match list_ascii_of_string s !! i with
      | Some c => Ok (JStr (String c EmptyString))
      | None => Raise IndexError
      end
  | JObj _ => Raise KeyError
  | _ => Raise TypeError
  end.

(** [v.upper()] *)
Definition upper (v : value) : result string :=
  match v with
  | JStr s => Ok (str_upper s)
  | _ => Raise AttributeError
  end.

(** [v.get(k, default)] *)
Definition dict_get (v : value) (k : string) (default : value) : result value :=
  match v with
  | JObj kvs => Ok (match assoc k kvs with Some x => x | None => default end)
  | _ => Raise AttributeError
  end.

(** ** The script *)

Variable w : world.

Definition timeframes : list (string * string) :=
  [("1m", "1m"); ("5m", "5m"); ("15m", "15m");
   ("1h", "1h"); ("4h", "4h"); ("1d", "1d")].

(** [requests.get] *)
Definition requests_get (rq : request) : M (Z * option value) :=
  _ ← emit (Requested rq);
  match answer w rq with
  | Unreachable => lift (Raise ConnectionError)
  | Response code body => mret (code, body)
  end.

(** [r.json()] *)
Definition response_json (r : Z * option value) : M value :=
  match snd r with
  | Some v => mret v
  | None => lift (Raise JSONDecodeError)
  end.

(** [cursor.execute] *)
Definition execute (q : statement) : M unit := fun s =>
  if rejects q then (Raise DatabaseError, s)
  else (Ok tt, State (symbols s) (exec q (txn s)) (stored s) (log s ++ [Executed q])).

(** [conn.commit()] *)
Definition commit : M unit := fun s =>
  (Ok tt, State (symbols s) (txn s) (txn s) (log s ++ [Committed])).

(** [symbols.append] *)
Definition symbols_append (x : string) : M unit := fun s =>
  (Ok tt, State (symbols s ++ [x]) (txn s) (stored s) (log s)).

Definition symbols_clear : M unit := fun s =>
  (Ok tt, State [] (txn s) (stored s) (log s)).

Definition symbols_read : M (list string) := fun s => (Ok (symbols s), s).

(** [coin['symbol'].upper() + 'USDT'] *)
Definition binance_symbol (coin : value) : result string :=
  match getitem coin "symbol" with
  | Ok t => match upper t with
            | Ok u => Ok (u ++ "USDT")
            | Raise e => Raise e
            end
  | Raise e => Raise e
  end.

(** lines 29-31: the body of the first loop *)
Definition collect_symbol (coin : value) : M unit :=
  sym ← lift (binance_symbol coin);
  symbols_append sym.

(** lines 35-44 *)
Definition fetch_binance_candles (symbol interval : string) (limit : Z) : M value :=
  r ← requests_get (Klines symbol interval limit);
  if decide (fst r = 200) then response_json r else mret (JArr []).

(** lines 47-58: the body of the reconcile loop *)
Definition reconcile_coin (coin : value) : M unit :=
  sym ← lift (binance_symbol coin);
  nm ← lift (getitem coin "name");
  img ← lift (dict_get coin "image" (JStr ""));
  _ ← execute (UpsertCrypto sym nm "Spot" img);
  symbols_append sym.

(** lines 65-79: the body of the candle loop *)
Definition import_candle (symbol tf_name : string) (candle : value) : M unit :=
  c0 ← lift (getindex candle 0);
  open_time ← lift (utcfromtimestamp_ms c0);
  c1 ← lift (getindex candle 1);
  o ← lift (float_of c1);
  c2 ← lift (getindex candle 2);
  h ← lift (float_of c2);
  c3 ← lift (getindex candle 3);
  l ← lift (float_of c3);
  c4 ← lift (getindex candle 4);
  c ← lift (float_of c4);
  c5 ← lift (getindex candle 5);
  v ← lift (float_of c5);
  execute (InsertPrice symbol tf_name o h l c v open_time open_time).

(** lines 62-80: the body of the timeframe loop, the import of one
    (symbol, timeframe) pair *)
Definition import_history (symbol : string) (tf : string * string) : M unit :=
  _ ← emit (Printed ("Importando candles reais para " ++ symbol ++ " - " ++ fst tf ++ "..."));
  candles ← fetch_binance_candles symbol (snd tf) 200;
  cs ← lift (iter candles);
  _ ← for_ cs (import_candle symbol (fst tf));
  emit (Slept 200).

(** lines 61-80 *)
Definition import_all (syms : list string) : M unit :=
  for_ syms (fun symbol => for_ timeframes (import_history symbol)).

(** lines 26-31 *)
Definition fetch_universe : M value :=
  resp ← requests_get Markets;
  coins ← response_json resp;
  _ ← symbols_clear;
  cs ← lift (iter coins);
  _ ← for_ cs collect_symbol;
  mret coins.

(** lines 47-58 *)
Definition reconcile (coins : value) : M unit :=
  cs ← lift (iter coins);
  for_ cs reconcile_coin.

(** lines 26-80: everything before the commit *)
Definition pipeline : M unit :=
  coins ← fetch_universe;
  _ ← reconcile coins;
  syms ← symbols_read;
  import_all syms.

(** the script, top to bottom; closing the cursor and the connection after
    the commit (lines 83-84) changes nothing in the store *)
Definition main : M unit :=
  _ ← pipeline;
  _ ← commit;
  emit (Printed "Importação concluída!").

(** A run on a store [d]: the connection opens a transaction on [d]. *)
Definition init (d : db) : state := State [] d d [].

Definition run (d : db) : result unit * state := main (init d).

End Script.

Arguments Db {H} _ _.
Arguments State {H} _ _ _ _.
Arguments World {H} _ _.

(** ** A host to run the script on

    Floats are the integers (the values of decimal integer literals and of
    JSON integers), instants are counts of milliseconds since the epoch,
    upper-casing is ASCII, rows of [cryptocurrencies] have no further column,
    and the store refuses a row of [cryptocurrencies] whose name is null. *)

Definition ascii_upper (c : ascii) : ascii :=
  let n := nat_of_ascii c in
  if ((97 <=? n) && (n <=? 122))%nat then ascii_of_nat (n - 32) else c.

Fixpoint string_upper (s : string) : string :=
  match s with
  | EmptyString => EmptyString
  | String c s' => String (ascii_upper c) (string_upper s')
  end.

Fixpoint decimal (s : string) (acc : Z) : option Z :=
  match s with
  | EmptyString => Some acc
  | String c s' =>
      let n := nat_of_ascii c in
      if ((48 <=? n) && (n <=? 57))%nat
      then decimal s' (10 * acc + Z.of_nat (n - 48))
      else None
  end.

Definition sample_float (v : json Z) : result Z :=
  match v with
  | JInt n => Ok n
  | JFloat x => Ok x
  | JStr EmptyString => Raise ValueError
  | JStr s => match decimal s 0 with Some n => Ok n | None => Raise ValueError end
  | _ => Raise TypeError
  end.

Definition sample_time (v : json Z) : result Z :=
  match v with
  | JInt n => Ok n
  | _ => Raise TypeError
  end.

Definition sample_rejects (q : stmt Z Z) : bool :=
  match q with
  | UpsertCrypto _ JNull _ _ => true
  | _ => false
  end.

Definition sample_host : Host := {|
  pyfloat := Z;
  datetime := Z;
  str_upper := string_upper;
  float_of := sample_float;
  utcfromtimestamp_ms := sample_time;
  extra := unit;
  extra_default := tt;
  rejects := sample_rejects;
|}.

(** ** The end-to-end example of the spec

    A universe of one coin, and an exchange that has two candles for
    BTCUSDT at one hour and none for any other pair. *)

Definition btc {F} : json F :=
  JObj [("symbol", JStr "BTC"); ("name", JStr "Bitcoin"); ("image", JStr "img.png")].

Definition candle1 {F} : json F :=
  JArr [JInt 1700000000000; JStr "100"; JStr "110"; JStr "90"; JStr "105"; JStr "50"].

Definition candle2 {F} : json F :=
  JArr [JInt 1700003600000; JStr "105"; JStr "108"; JStr "95"; JStr "106"; JStr "40"].

Definition example_klines {F} (symbol interval : string) (limit : Z) : http F :=
  if (String.eqb symbol "BTCUSDT" && String.eqb interval "1h")%bool
  then Response 200 (Some (JArr [candle1; candle2]))
  else Response 200 (Some (JArr [])).

Definition example_world `{H : Host} : world :=
  World (Response 200 (Some (JArr [btc]))) example_klines.

Definition empty_db `{H : Host} : db := Db ∅ ∅.

(** Further inputs: a coin without an image, a coin whose name is null, a
    second coin with the ticker of the first, a universe provider that
    answers an error status with a list of coins, and an exchange that
    refuses every request. *)

Definition eth {F} : json F :=
  JObj [("symbol", JStr "eth"); ("name", JStr "Ethereum")].

Definition nameless {F} : json F :=
  JObj [("symbol", JStr "xyz"); ("name", JNull)].

Definition btc_again {F} : json F :=
  JObj [("symbol", JStr "btc"); ("name", JStr "Bitcoin Cash"); ("image", JStr "bch.png")].

Definition refusing_klines {F} (symbol interval : string) (limit : Z) : http F :=
  Response 429 None.


Definition nameless_world `{H : Host} : world :=
  World (Response 200 (Some (JArr [btc; nameless; eth]))) example_klines.

Definition error_status_world `{H : Host} : world :=
  World (Response 503 (Some (JArr [btc]))) example_klines.

(** A universe of [n] coins with pairwise distinct tickers: the letter c
    followed by [n - 1], [n - 2], ..., [0] letters x. *)
Fixpoint universe {F} (n : nat) : list (json F) :=
  match n with
  | O => []
  | S n' =>
      JObj [("symbol", JStr (String "c" (string_of_list_ascii (repeat "x"%char n'))));
            ("name", JStr "coin")] :: universe n'
  end.

(** A store of the sample host that lists BTCUSDT already, as an inactive
    futures market under an old name. *)
Definition listed_db : @db sample_host :=
  @Db sample_host
      {[ "BTCUSDT" := @CryptoRow sample_host (JStr "Old name") "Futures" (JStr "old.png") false tt ]}
      ∅.

Definition hundred_coin_world `{H : Host} : world :=
  World (Response 200 (Some (JArr (universe 100)))) refusing_klines.

(** ** What a run leaves behind: readings of the log and of the store *)

Section Readings.
Context `{H : Host}.

(** The statements a log records, in order. *)
Definition stmts_of (evs : list event) : list (stmt pyfloat datetime) :=
  omap (fun e => match e with Executed q => Some q | _ => None end) evs.

(** The statements of a list, one after the other. *)
Definition exec_all (qs : list (stmt pyfloat datetime)) (d : db) : db :=
  foldl (fun d q => exec q d) d qs.

Definition is_klines (e : event) : bool :=
  match e with Requested (Klines _ _ _) => true | _ => false end.

Definition is_commit (e : event) : bool :=
  match e with Committed => true | _ => false end.

(** The candle requests a log records: the invocations of the import. *)
Definition klines_of (evs : list event) : list (string * string) :=
  omap (fun e => match e with
                 | Requested (Klines s i _) => Some (s, i)
                 | _ => None
                 end) evs.

(** The key a statement writes under. *)
Definition upsert_key (q : stmt pyfloat datetime) : option string :=
  match q with
  | UpsertCrypto sym _ _ _ => Some sym
  | InsertPrice _ _ _ _ _ _ _ _ _ => None
  end.

Definition insert_key (q : stmt pyfloat datetime) : option (string * string * datetime) :=
  match q with
  | UpsertCrypto _ _ _ _ => None
  | InsertPrice sym tf _ _ _ _ _ ts _ => Some (sym, tf, ts)
  end.

(** An insert that finds its key in the table is skipped. *)
Definition skipped (q : stmt pyfloat datetime) (d : db) : bool :=
  match insert_key q with
  | Some k => bool_decide (is_Some (price_history d !! k))
  | None => false
  end.

(** The inserts of a list that are skipped when the list is executed. *)
Fixpoint duplicates (qs : list (stmt pyfloat datetime)) (d : db) : nat :=
  match qs with
  | [] => 0%nat
  | q :: qs' => ((if skipped q d then 1 else 0) + duplicates qs' (exec q d))%nat
  end.

(** The name and image of the last upsert of a list under a symbol. *)
Fixpoint last_upsert (k : string) (qs : list (stmt pyfloat datetime))
  : option (json pyfloat * json pyfloat) :=
  match qs with
  | [] => None
  | q :: qs' =>
      match last_upsert k qs' with
      | Some x => Some x
      | None =>
          match q with
          | UpsertCrypto sym nm _ img =>
              if decide (sym = k) then Some (nm, img) else None
          | InsertPrice _ _ _ _ _ _ _ _ _ => None
          end
      end
  end.

(** The statement the reconcile loop sends for a coin. *)
Definition upsert_of (coin : json pyfloat) : result (stmt pyfloat datetime) :=
  match binance_symbol coin with
  | Ok sym =>
      match getitem coin "name" with
      | Ok nm =>
          match dict_get coin "image" (JStr "") with
          | Ok img => Ok (UpsertCrypto sym nm "Spot" img)
          | Raise e => Raise e
          end
      | Raise e => Raise e
      end
  | Raise e => Raise e
  end.

(** The statement the candle loop sends for a raw candle. *)
Definition insert_of (symbol tf_name : string) (candle : json pyfloat)
  : result (stmt pyfloat datetime) :=
  match getindex candle 0 with
  | Ok c0 =>
  match utcfromtimestamp_ms c0 with
  | Ok t =>
  match getindex candle 1 with
  | Ok c1 =>
  match float_of c1 with
  | Ok o =>
  match getindex candle 2 with
  | Ok c2 =>
  match float_of c2 with
  | Ok h =>
  match getindex candle 3 with
  | Ok c3 =>
  match float_of c3 with
  | Ok l =>
  match getindex candle 4 with
  | Ok c4 =>
  match float_of c4 with
  | Ok c =>
  match getindex candle 5 with
  | Ok c5 =>
  match float_of c5 with
  | Ok v => Ok (InsertPrice symbol tf_name o h l c v t t)
  | Raise e => Raise e end
  | Raise e => Raise e end
  | Raise e => Raise e end
  | Raise e => Raise e end
  | Raise e => Raise e end
  | Raise e => Raise e end
  | Raise e => Raise e end
  | Raise e => Raise e end
  | Raise e => Raise e end
  | Raise e => Raise e end
  | Raise e => Raise e end
  | Raise e => Raise e end.

(** The value of a result that is not an exception. *)
Definition ok {A} (r : result A) : option A :=
  match r with Ok a => Some a | Raise _ => None end.

(** What [cursor.execute] makes of a statement that was computed. *)
Definition sent (r : result (stmt pyfloat datetime)) : result (stmt pyfloat datetime) :=
  match r with
  | Ok q => if rejects q then Raise DatabaseError else Ok q
  | Raise e => Raise e
  end.

(** The symbols the first loop derives from a list of coins. *)
Definition symbols_of (cs : list (json pyfloat)) : list string :=
  omap (fun c => ok (binance_symbol c)) cs.

(** The upserts the reconcile loop executes for a list of coins. *)
Definition upserts_of (cs : list (json pyfloat)) : list (stmt pyfloat datetime) :=
  omap (fun c => ok (sent (upsert_of c))) cs.

(** The inserts the candle loop executes for a list of raw candles. *)
Definition inserts_of (symbol tf_name : string) (cs : list (json pyfloat))
  : list (stmt pyfloat datetime) :=
  omap (fun c => ok (sent (insert_of symbol tf_name c))) cs.

(** The state after one round of each loop. *)
Definition collected (sym : string) (s : state) : state :=
  State (symbols s ++ [sym]) (txn s) (stored s) (log s).

Definition reconciled (q : stmt pyfloat datetime) (s : state) : state :=
  State (symbols s ++ option_list (upsert_key q)) (exec q (txn s)) (stored s)
        (log s ++ [Executed q]).

Definition inserted (q : stmt pyfloat datetime) (s : state) : state :=
  State (symbols s) (exec q (txn s)) (stored s) (log s ++ [Executed q]).

(** The cross product the import loop walks: every symbol of the list, in
    order, with every timeframe. *)
Definition pairs_of (syms : list string) : list (string * string) :=
  concat (map (fun sym => map (fun tf => (sym, snd tf)) timeframes) syms).

(** What [fetch_binance_candles] returns in a world. *)
Definition candles_of (w : world) (symbol interval : string) (limit : Z)
  : result (json pyfloat) :=
  match binance w symbol interval limit with
  | Unreachable => Raise ConnectionError
  | Response code body =>
      if decide (code = 200)
      then match body with Some v => Ok v | None => Raise JSONDecodeError end
      else Ok (JArr [])
  end.

(** The raw candles the import of a pair loops over. *)
Definition raw_candles (w : world) (symbol : string) (tf : string * string)
  : result (list (json pyfloat)) :=
  match candles_of w symbol (snd tf) 200 with
  | Ok v => iter v
  | Raise e => Raise e
  end.

(** The events of the import of a pair that completes. *)
Definition import_events (symbol : string) (tf : string * string)
    (cs : list (json pyfloat)) : list event :=
  [Printed ("Importando candles reais para " ++ symbol ++ " - " ++ fst tf ++ "...");
   Requested (Klines symbol (snd tf) 200)]
  ++ map Executed (inserts_of symbol (fst tf) cs) ++ [Slept 200].

(** The (symbol, timeframe) pairs in the order the nested loops visit them. *)
Definition cross (syms : list string) : list (string * (string * string)) :=
  concat (map (fun sym => map (fun tf => (sym, tf)) timeframes) syms).

(** [s'] is reached from [s] without a commit: the log grew by events that
    satisfy [P], the committed store is the same, and the transaction holds
    the statements of the new events. *)
Definition extends (P : event -> Prop) (s s' : state) : Prop :=
  exists evs,
    log s' = (log s ++ evs)%list /\ Forall P evs /\ stored s' = stored s /\
    txn s' = exec_all (stmts_of evs) (txn s).

(** A computation that never commits and only produces events in [P]. *)
Definition keeps (P : event -> Prop) {A} (m : M A) : Prop :=
  forall s, extends P s (snd (m s)).

(** Two states with the same program variables and the same log; their
    stores may differ. *)
Definition agree (s1 s2 : state) : Prop :=
  symbols s1 = symbols s2 /\ log s1 = log s2.

(** A computation whose result, variables and log do not depend on what the
    store holds. *)
Definition oblivious {A} (m : M A) : Prop :=
  forall s1 s2, agree s1 s2 ->
    fst (m s1) = fst (m s2) /\ agree (snd (m s1)) (snd (m s2)).

Definition not_commit (e : event) : Prop := is_commit e = false.

(** The events before the import phase: no candle request, no commit. *)
Definition before_import (e : event) : Prop :=
  is_klines e = false /\ is_commit e = false.

End Readings.

(** ** The events of the two phases *)

Section Shapes.
Context `{H : Host}.

(** What the universe fetch and the reconcile loop log: the request to the
    ranking provider and upserts with the market type Spot. *)
Definition registry_event (e : event) : Prop :=
  match e with
  | Requested Markets => True
  | Executed (UpsertCrypto _ _ mt _) => mt = "Spot"
  | _ => False
  end.

(** What the import loop logs: prints, candle requests for one of the six
    intervals with the limit 200, inserts under one of the six timeframes
    whose [created_at] is their timestamp, and sleeps of 200 ms. *)
Definition import_event (e : event) : Prop :=
  match e with
  | Printed _ => True
  | Slept ms => ms = 200
  | Requested (Klines _ i l) => i ∈ map snd timeframes /\ l = 200
  | Executed (InsertPrice _ tf _ _ _ _ _ ts cr) =>
      tf ∈ map fst timeframes /\ cr = ts
  | _ => False
  end.

(** What a log tells about the pacing of the exchange: the candle requests,
    as (symbol, interval), and the sleeps, in the order of the log. *)
Inductive beat : Type :=
  | Call (p : string * string)
  | Pause (ms : Z).

Definition beats_of (evs : list event) : list beat :=
  omap (fun e => match e with
                 | Requested (Klines s i _) => Some (Call (s, i))
                 | Slept ms => Some (Pause ms)
                 | _ => None
                 end) evs.

(** Events that are neither a candle request nor a sleep. *)
Definition offbeat (e : event) : Prop :=
  match e with
  | Requested (Klines _ _ _) | Slept _ => False
  | _ => True
  end.

(** Each request directly followed by a pause of 200 ms. *)
Definition paced (ps : list (string * string)) : list beat :=
  concat (map (fun p => [Call p; Pause 200]) ps).

(** The statements of an import phase: inserts under one of the six
    timeframes whose [created_at] is their timestamp. *)
Definition import_stmt (q : stmt pyfloat datetime) : Prop :=
  match q with
  | InsertPrice _ tf _ _ _ _ _ ts cr => tf ∈ map fst timeframes /\ cr = ts
  | UpsertCrypto _ _ _ _ => False
  end.

(** The statements of the reconcile phase. *)
Definition registry_stmt (q : stmt pyfloat datetime) : Prop :=
  match q with
  | UpsertCrypto _ _ mt _ => mt = "Spot"
  | InsertPrice _ _ _ _ _ _ _ _ _ => False
  end.

End Shapes.

(** A ranking provider that answers 429 with the JSON object of an error. *)
Definition rate_limited_world `{H : Host} : world :=
  World (Response 429 (Some (JObj [("status", JObj [("error_code", JInt 429)])])))
        example_klines.

(** An exchange that cannot be reached for the 5m interval and has no
    candle for the others. *)
Definition cut_off_klines {F} (symbol interval : string) (limit : Z) : http F :=
  if String.eqb interval "5m" then Unreachable else Response 200 (Some (JArr [])).

Definition cut_off_world `{H : Host} : world :=
  World (Response 200 (Some (JArr [btc]))) cut_off_klines.

(** * scripts/update_imports.py: the import-path rewrite, embedded

    The script walks the tree under the current directory top-down, skips
    every directory named vendor, and in every file whose name ends in .go
    replaces the old module path by the new one, file by file, printing a
    line for each file it rewrites and for each file it fails on.

    A file is the bytes it holds on disk, whether it can be opened for
    reading and whether it can be opened for writing.  The script opens
    files in text mode with the encoding utf-8 and the default [newline]:
    reading decodes the bytes, which raises when they are not well-formed
    UTF-8, and turns every line ending into a line feed; writing turns every
    line feed into [os.linesep] and encodes.  A text that came out of the
    decoder is kept as its UTF-8 bytes: the module paths and the characters
    of the line endings are ASCII, so [in], [replace] and the translation of
    line endings are the same on the text and on its bytes, and encoding
    such a text cannot fail.  Names within a directory are pairwise
    distinct, and no two of them stand for the same file.  Directories are
    listed as [os.walk] yields them: its tuples carry the sub-directories
    and the other entries of a directory, in some order. *)

Record source_file : Type := SourceFile {
  bytes : string;
  readable : bool;
  writable : bool;
}.

(** The platform the script runs on, for [os.linesep]. *)
Inductive platform : Type :=
  | Posix
  | Windows.

Definition LF : ascii := "010"%char.
Definition CR : ascii := "013"%char.

(** [os.linesep] *)
Definition linesep (os : platform) : string :=
  match os with
  | Posix => String LF EmptyString
  | Windows => String CR (String LF EmptyString)
  end.

Definition between (lo hi n : N) : bool := ((lo <=? n)%N && (n <=? hi)%N)%bool.

(** The strict UTF-8 decoder accepts the well-formed byte sequences (The
    Unicode Standard, table 3-7): no stray continuation byte, no overlong
    form, no surrogate, nothing above U+10FFFF, no sequence cut short.
    [need] counts the continuation bytes still due, the next of them within
    [lo] and [hi]. *)
Fixpoint utf8_run (need : nat) (lo hi : N) (s : string) : bool :=
  match s with
  | EmptyString => match need with O => true | S _ => false end
  | String a s' =>
      let n := N_of_ascii a in
      match need with
      | O =>
          if between 0 127 n then utf8_run 0 128 191 s'
          else if between 194 223 n then utf8_run 1 128 191 s'
          else if between 224 224 n then utf8_run 2 160 191 s'
          else if between 225 236 n then utf8_run 2 128 191 s'
          else if between 237 237 n then utf8_run 2 128 159 s'
          else if between 238 239 n then utf8_run 2 128 191 s'
          else if between 240 240 n then utf8_run 3 144 191 s'
          else if between 241 243 n then utf8_run 3 128 191 s'
          else if between 244 244 n then utf8_run 3 128 143 s'
          else false
      | S k => between lo hi n && utf8_run k 128 191 s'
      end
  end.

Definition utf8_valid (s : string) : bool := utf8_run 0 128 191 s.

(** The translation of line endings on reading ([newline=None]): a carriage
    return followed by a line feed, and a carriage return alone, become one
    line feed.  [after_cr] says that the byte before was a carriage return,
    turned into a line feed already: a line feed that follows it is
    dropped. *)
Fixpoint read_newlines (after_cr : bool) (s : string) : string :=
  match s with
  | EmptyString => EmptyString
  | String c s' =>
      if Ascii.eqb c CR then String LF (read_newlines true s')
      else if Ascii.eqb c LF && after_cr then read_newlines false s'
      else String c (read_newlines false s')
  end.

Definition universal_newlines (s : string) : string := read_newlines false s.

(** The translation of line endings on writing: every line feed becomes
    [os.linesep]. *)
Fixpoint write_newlines (os : platform) (s : string) : string :=
  match s with
  | EmptyString => EmptyString
  | String c s' =>
      if Ascii.eqb c LF then linesep os ++ write_newlines os s'
      else String c (write_newlines os s')
  end.

(** lines 21-22: [open(file_path, 'r', encoding='utf-8')] and [f.read()];
    [None] when either raises. *)
Definition read_text (f : source_file) : option string :=
  if readable f && utf8_valid (bytes f)
  then Some (universal_newlines (bytes f))
  else None.

(** lines 28-29: [open(file_path, 'w', encoding='utf-8')] and [f.write];
    [None] when the file cannot be opened, and is left as it is. *)
Definition write_text (os : platform) (f : source_file) (content : string)
  : option source_file :=
  if writable f
  then Some (SourceFile (write_newlines os content) (readable f) (writable f))
  else None.

Inductive tree : Type :=
  | Dir (dirs : list (string * tree)) (files : list (string * source_file)).

(** What the script prints: "Updating: path", "Error processing path: ..."
    (the text of the exception is not modelled) and the final line. *)
Inductive notice : Type :=
  | Updating (root : list string) (file : string)
  | ErrorProcessing (root : list string) (file : string)
  | Complete.

(** [os.path.join(root, file)] for the roots [os.walk(".")] yields; a root
    is kept as the list of directory names below the current directory, the
    last one first. *)
Fixpoint root_path (root : list string) : string :=
  match root with
  | [] => "."
  | name :: above => root_path above ++ "/" ++ name
  end.

Definition file_path (root : list string) (file : string) : string :=
  root_path root ++ "/" ++ file.

(** [s.startswith(p)] *)
Fixpoint starts_with (p s : string) : bool :=
  match p, s with
  | EmptyString, _ => true
  | String a p', String b s' => Ascii.eqb a b && starts_with p' s'
  | String _ _, EmptyString => false
  end.

(** [p in s] *)
Fixpoint contains (p s : string) : bool :=
  starts_with p s ||
  match s with
  | EmptyString => false
  | String _ s' => contains p s'
  end.

(** [s.endswith(p)] *)
Definition ends_with (p s : string) : bool :=
  (String.length p <=? String.length s)%nat &&
  String.eqb (String.substring (String.length s - String.length p) (String.length p) s) p.

(** [s.replace(old, new)] for a non-empty [old]: the occurrences of [old]
    are replaced from left to right, without overlap; [skip] counts the
    characters of the occurrence just replaced that are still to pass. *)
Fixpoint replace_from (old new : string) (skip : nat) (s : string) : string :=
  match s with
  | EmptyString => EmptyString
  | String c s' =>
      match skip with
      | S k => replace_from old new k s'
      | O =>
          if starts_with old s
          then new ++ replace_from old new (String.length old - 1) s'
          else String c (replace_from old new 0 s')
      end
  end.

(** [s.replace("", new)] puts [new] before every character and at the end. *)
Fixpoint intersperse (new s : string) : string :=
  match s with
  | EmptyString => new
  | String c s' => new ++ String c (intersperse new s')
  end.

Definition py_replace (old new s : string) : string :=
  match old with
  | EmptyString => intersperse new s
  | String _ _ => replace_from old new 0 s
  end.

Definition old_module : string := "github.com/growthfolio/go-priceguard-api".
Definition new_module : string := "github.com/growthfolio/go-priceguard-api".

(** lines 17-32: one file of a directory *)
Definition update_file (os : platform) (root : list string) (name : string)
    (f : source_file) : source_file * list notice :=
  if ends_with ".go" name then
    match read_text f with
    | None => (f, [ErrorProcessing root name])
    | Some content =>
        if contains old_module content then
          match write_text os f (py_replace old_module new_module content) with
          | Some f' => (f', [Updating root name])
          | None => (f, [Updating root name; ErrorProcessing root name])
          end
        else (f, [])
    end
  else (f, []).

(** lines 16-32: the files of a directory, in order *)
Fixpoint update_files (os : platform) (root : list string)
    (files : list (string * source_file))
  : list (string * source_file) * list notice :=
  match files with
  | [] => ([], [])
  | (name, f) :: rest =>
      let r := update_file os root name f in
      let rs := update_files os root rest in
      ((name, fst r) :: fst rs, (snd r ++ snd rs)%list)
  end.

(** lines 11-14: the sub-directories [os.walk] descends into, in order: all
    but the first one named vendor, which [dirs.remove] takes off the list.
    [removed] says whether it has been taken off already; [walk] is the walk
    of a sub-directory. *)
Definition walk_dirs (walk : list string -> tree -> tree * list notice)
    (root : list string)
  : bool -> list (string * tree) -> list (string * tree) * list notice :=
  fix go (removed : bool) (dirs : list (string * tree)) :=
    match dirs with
    | [] => ([], [])
    | (name, sub) :: rest =>
        if negb removed && String.eqb name "vendor" then
          let rs := go true rest in
          ((name, sub) :: fst rs, snd rs)
        else
          let r := walk (name :: root) sub in
          let rs := go removed rest in
          ((name, fst r) :: fst rs, (snd r ++ snd rs)%list)
    end.

(** lines 11-32: [os.walk] from a directory, top-down: the files of the
    directory first, then its sub-directories. *)
Fixpoint walk (os : platform) (root : list string) (t : tree)
  : tree * list notice :=
  match t with
  | Dir dirs files =>
      let fs := update_files os root files in
      let ds := walk_dirs (walk os) root false dirs in
      (Dir (fst ds) (fst fs), (snd fs ++ snd ds)%list)
  end.

(** lines 6-32 *)
Definition update_imports (os : platform) (t : tree) : tree * list notice :=
  walk os [] t.

(** lines 34-36 *)
Definition update_imports_script (os : platform) (t : tree)
  : tree * list notice :=
  let r := update_imports os t in
  (fst r, (snd r ++ [Complete])%list).



(** The same directories and file names, in the same order, with files
    related by [R]. *)
Inductive same_tree (R : source_file -> source_file -> Prop) : tree -> tree -> Prop :=
  | same_dir dirs dirs' files files' :
      Forall2 (fun d d' => fst d = fst d' /\ same_tree R (snd d) (snd d')) dirs dirs' ->
      Forall2 (fun x x' => fst x = fst x' /\ R (snd x) (snd x')) files files' ->
      same_tree R (Dir dirs files) (Dir dirs' files').

(** [f'] is [f] but for its line endings: the same permissions, the same
    outcome of reading, and the bytes of [f] or the text read from [f]
    written with the line endings of the platform. *)
Definition same_text (os : platform) (f f' : source_file) : Prop :=
  readable f' = readable f /\
  writable f' = writable f /\
  read_text f' = read_text f /\
  (bytes f' = bytes f \/
   bytes f' = write_newlines os (universal_newlines (bytes f))).

(** [a] occurs in [s] *)
Fixpoint has_byte (a : ascii) (s : string) : bool :=
  match s with
  | EmptyString => false
  | String c s' => Ascii.eqb c a || has_byte a s'
  end.

(** Every file of the tree, at any depth, passes the test. *)
Fixpoint every_file (test : source_file -> bool) (t : tree) : bool :=
  match t with
  | Dir dirs files =>
      forallb (fun x => test (snd x)) files &&
      forallb (fun d => every_file test (snd d)) dirs
  end.

(** Trees to run the script on.  The first has Go files with line feeds and
    with carriage returns and line feeds, in and out of vendor, a text file,
    a Go file that is not UTF-8, one that cannot be written and one that
    does not hold the path; the second has no carriage return. *)
Definition go_source : source_file :=
  SourceFile
    ("// import github.com/growthfolio/go-priceguard-api/internal" ++
     String LF EmptyString)
    true true.

Definition dos_source : source_file :=
  SourceFile
    ("package main" ++ String CR (String LF EmptyString) ++
     "// import github.com/growthfolio/go-priceguard-api/internal" ++
     String CR (String LF EmptyString))
    true true.

Definition sample_tree : tree :=
  Dir [("vendor", Dir [] [("dep.go", dos_source)]);
       ("cmd", Dir [("vendor", Dir [] [("x.go", go_source)])]
                   [("main.go", go_source);
                    ("dos.go", dos_source);
                    ("binary.go", SourceFile (String "255"%char (bytes go_source)) true true);
                    ("locked.go", SourceFile (bytes go_source) true false)])]
      [("README.md", go_source); ("other.go", SourceFile "package other" true true)].

Definition unix_tree : tree :=
  Dir [("cmd", Dir [] [("main.go", go_source)])]
      [("other.go", SourceFile "package other" true true)].



(** * Properties *)

Section Monad.
Context `{H : Host}.

Lemma bind_run {A B} (m : M A) (f : A -> M B) (s : state) :
  (m ≫= f) s =
  match m s with
  | (Ok a, s') => f a s'
  | (Raise e, s') => (Raise e, s')
  end.
Proof. reflexivity. Qed.

Lemma bind_assoc {A B C} (m : M A) (f : A -> M B) (g : B -> M C) (s : state) :
  ((m ≫= f) ≫= g) s = (m ≫= fun a => f a ≫= g) s.
Proof.
  rewrite !bind_run. destruct (m s) as [[a|e] s1]; [|reflexivity].
  rewrite bind_run. reflexivity.
Qed.

Lemma outcome_eta {A} (p : result A * state) (a : A) :
  fst p = Ok a -> p = (Ok a, snd p).
Proof. destruct p as [r s]. simpl. by intros ->. Qed.

Lemma for_nil {A} (body : A -> M unit) (s : state) :
  for_ [] body s = (Ok tt, s).
Proof. reflexivity. Qed.

Lemma for_cons {A} (x : A) (l : list A) (body : A -> M unit) (s : state) :
  for_ (x :: l) body s =
  match body x s with
  | (Ok _, s') => for_ l body s'
  | (Raise e, s') => (Raise e, s')
  end.
Proof. reflexivity. Qed.

Lemma for_app {A} (l1 l2 : list A) (body : A -> M unit) (s : state) :
  for_ (l1 ++ l2) body s =
  match for_ l1 body s with
  | (Ok _, s') => for_ l2 body s'
  | (Raise e, s') => (Raise e, s')
  end.
Proof.
  revert s. induction l1 as [|x l1 IH]; intros s; [reflexivity|].
  rewrite <- app_comm_cons, !for_cons.
  destruct (body x s) as [[[]|e] s1]; [apply IH|reflexivity].
Qed.

(** A loop over a list with an element whose body always raises, raises. *)
Lemma for_raises {A} (l : list A) (body : A -> M unit) (x : A) :
  x ∈ l ->
  (forall s, exists e, fst (body x s) = Raise e) ->
  forall s, exists e, fst (for_ l body s) = Raise e.
Proof.
  intros Hin Hx. induction l as [|y l IH]; [by apply elem_of_nil in Hin|].
  intros s. rewrite for_cons. apply elem_of_cons in Hin as [<-|Hin].
  - destruct (Hx s) as [e He].
    destruct (body x s) as [[[]|e'] s1]; simpl in *; [discriminate|eauto].
  - destruct (body y s) as [[[]|e'] s1]; simpl; [by apply IH|eauto].
Qed.

(** A loop that completes collects what each round appends to a reading of
    the state. *)
Lemma for_collects {A X} (mu : state -> list X) (g : A -> list X)
    (body : A -> M unit) :
  (forall x s s', body x s = (Ok tt, s') -> mu s' = (mu s ++ g x)%list) ->
  forall l s s', for_ l body s = (Ok tt, s') ->
    mu s' = (mu s ++ concat (map g l))%list.
Proof.
  intros Hb. induction l as [|x l IH]; intros s s' Hrun.
  - rewrite for_nil in Hrun. injection Hrun as <-. simpl. by rewrite app_nil_r.
  - rewrite for_cons in Hrun.
    destruct (body x s) as [[[]|e] s1] eqn:Hx; [|discriminate].
    apply Hb in Hx. apply IH in Hrun. simpl. by rewrite Hrun, Hx, app_assoc.
Qed.

Lemma for_map {A B} (f : A -> B) (body : B -> M unit) (l : list A) (s : state) :
  for_ (map f l) body s = for_ l (fun x => body (f x)) s.
Proof.
  revert s. induction l as [|x l IH]; intros s; [done|].
  simpl map. rewrite !for_cons.
  destruct (body (f x) s) as [[[]|e] s1]; [apply IH|done].
Qed.

Lemma for_ext {A} (body1 body2 : A -> M unit) (l : list A) (s : state) :
  (forall x s, body1 x s = body2 x s) ->
  for_ l body1 s = for_ l body2 s.
Proof.
  intros Hb. revert s. induction l as [|x l IH]; intros s; [done|].
  rewrite !for_cons, Hb. destruct (body2 x s) as [[[]|e] s1]; [apply IH|done].
Qed.

(** Nested loops walk the concatenation of the inner lists. *)
Lemma for_concat {A B} (f : A -> list B) (body : B -> M unit) (l : list A) (s : state) :
  for_ l (fun x => for_ (f x) body) s = for_ (concat (map f l)) body s.
Proof.
  revert s. induction l as [|x l IH]; intros s; [done|].
  simpl concat. rewrite for_app, for_cons.
  destruct (for_ (f x) body s) as [[[]|e] s1]; [apply IH|done].
Qed.

(** ** Logs and statement lists *)

Lemma exec_all_app (qs1 qs2 : list (stmt pyfloat datetime)) (d : db) :
  exec_all (qs1 ++ qs2) d = exec_all qs2 (exec_all qs1 d).
Proof. apply foldl_app. Qed.

Lemma stmts_of_app (evs1 evs2 : list event) :
  stmts_of (evs1 ++ evs2) = (stmts_of evs1 ++ stmts_of evs2)%list.
Proof. apply omap_app. Qed.

Lemma stmts_of_executed (qs : list (stmt pyfloat datetime)) :
  stmts_of (map Executed qs) = qs.
Proof. induction qs as [|q qs IH]; [done|]. simpl. by rewrite IH. Qed.

Lemma klines_of_executed (qs : list (stmt pyfloat datetime)) :
  klines_of (map Executed qs) = [].
Proof. induction qs as [|q qs IH]; [done|]. simpl. by rewrite IH. Qed.

Lemma klines_of_app (evs1 evs2 : list event) :
  klines_of (evs1 ++ evs2) = (klines_of evs1 ++ klines_of evs2)%list.
Proof. apply omap_app. Qed.

Lemma klines_of_quiet (evs : list event) :
  Forall (fun e => is_klines e = false) evs -> klines_of evs = [].
Proof.
  induction 1 as [|e evs He _ IH]; [reflexivity|].
  destruct e as [[|? ? ?]| | | |]; simpl in *; try discriminate; exact IH.
Qed.

(** ** Running without a commit *)

Lemma extends_refl (P : event -> Prop) (s : state) : extends P s s.
Proof. exists []. rewrite app_nil_r. repeat split. constructor. Qed.

Lemma extends_trans (P : event -> Prop) (s1 s2 s3 : state) :
  extends P s1 s2 -> extends P s2 s3 -> extends P s1 s3.
Proof.
  intros (e1 & Hl1 & Hp1 & Hs1 & Ht1) (e2 & Hl2 & Hp2 & Hs2 & Ht2).
  exists (e1 ++ e2)%list. repeat split.
  - by rewrite Hl2, Hl1, app_assoc.
  - by apply Forall_app.
  - congruence.
  - by rewrite Ht2, Ht1, stmts_of_app, exec_all_app.
Qed.

Lemma extends_weaken (P Q : event -> Prop) (s s' : state) :
  (forall e, P e -> Q e) -> extends P s s' -> extends Q s s'.
Proof.
  intros HPQ (evs & Hl & Hp & Hs & Ht). exists evs. repeat split; try done.
  eapply Forall_impl; eauto.
Qed.

Lemma keeps_weaken (P Q : event -> Prop) {A} (m : M A) :
  (forall e, P e -> Q e) -> keeps P m -> keeps Q m.
Proof. intros HPQ Hm s. eapply extends_weaken; eauto. Qed.

Lemma keeps_ret (P : event -> Prop) {A} (a : A) : keeps P (mret a).
Proof. intros s. apply extends_refl. Qed.

Lemma keeps_lift (P : event -> Prop) {A} (r : result A) : keeps P (lift r).
Proof. intros s. apply extends_refl. Qed.

Lemma keeps_bind (P : event -> Prop) {A B} (m : M A) (f : A -> M B) :
  keeps P m -> (forall a, keeps P (f a)) -> keeps P (m ≫= f).
Proof.
  intros Hm Hf s. rewrite bind_run. specialize (Hm s).
  destruct (m s) as [[a|e] s1]; simpl in *; [|exact Hm].
  eapply extends_trans; [exact Hm|apply Hf].
Qed.

Lemma keeps_for (P : event -> Prop) {A} (l : list A) (body : A -> M unit) :
  (forall x, keeps P (body x)) -> keeps P (for_ l body).
Proof.
  intros Hb. induction l as [|x l IH]; [apply keeps_ret|].
  apply keeps_bind; [apply Hb|intros _; exact IH].
Qed.

Lemma keeps_emit (P : event -> Prop) (e : event) :
  P e -> stmts_of [e] = [] -> keeps P (emit e).
Proof.
  intros He Hq s. exists [e]. split; [reflexivity|].
  split; [by constructor|]. split; [reflexivity|]. by rewrite Hq.
Qed.

Lemma keeps_execute (P : event -> Prop) (q : stmt pyfloat datetime) :
  P (Executed q) -> keeps P (execute q).
Proof.
  intros Hq s. unfold execute. destruct (rejects q); [apply extends_refl|].
  exists [Executed q]. simpl. repeat split. by constructor.
Qed.

Lemma keeps_symbols_append (P : event -> Prop) (x : string) :
  keeps P (symbols_append x).
Proof. intros s. exists []. simpl. rewrite app_nil_r. repeat split. constructor. Qed.

Lemma keeps_symbols_clear (P : event -> Prop) : keeps P symbols_clear.
Proof. intros s. exists []. simpl. rewrite app_nil_r. repeat split. constructor. Qed.

Lemma keeps_symbols_read (P : event -> Prop) : keeps P symbols_read.
Proof. intros s. apply extends_refl. Qed.

End Monad.

Section Store.
Context `{H : Host}.

Implicit Types (q : stmt pyfloat datetime) (qs : list (stmt pyfloat datetime)).
Implicit Types (d : db).

Lemma exec_all_cons q qs d : exec_all (q :: qs) d = exec_all qs (exec q d).
Proof. reflexivity. Qed.

(** ** One statement, one key *)

Lemma exec_upsert_lookup sym nm mt img d k :
  cryptocurrencies (exec (UpsertCrypto sym nm mt img) d) !! k =
  if decide (sym = k)
  then Some (match cryptocurrencies d !! sym with
             | None => CryptoRow nm mt img true extra_default
             | Some r => CryptoRow nm (market_type r) img true (others r)
             end)
  else cryptocurrencies d !! k.
Proof. simpl. apply lookup_insert. Qed.

Lemma exec_upsert_prices sym nm mt img d :
  price_history (exec (UpsertCrypto sym nm mt img) d) = price_history d.
Proof. reflexivity. Qed.

Lemma exec_insert_cryptos sym tf o h l c v ts cr d :
  cryptocurrencies (exec (InsertPrice sym tf o h l c v ts cr) d) = cryptocurrencies d.
Proof. simpl. by destruct (price_history d !! (sym, tf, ts)). Qed.

Lemma exec_insert_lookup sym tf o h l c v ts cr d k :
  price_history (exec (InsertPrice sym tf o h l c v ts cr) d) !! k =
  match price_history d !! k with
  | Some r => Some r
  | None => if decide ((sym, tf, ts) = k) then Some (PriceRow o h l c v cr) else None
  end.
Proof.
  simpl. destruct (price_history d !! (sym, tf, ts)) as [r|] eqn:Hk; simpl.
  - destruct (price_history d !! k) as [r'|] eqn:Hk'; [done|].
    case_decide; [congruence|done].
  - rewrite lookup_insert. case_decide as Hd.
    + subst k. by rewrite Hk.
    + by destruct (price_history d !! k).
Qed.

(** A stored candle is never changed. *)
Lemma exec_price_kept q d k r :
  price_history d !! k = Some r -> price_history (exec q d) !! k = Some r.
Proof.
  intros Hk. destruct q; [done|]. by rewrite exec_insert_lookup, Hk.
Qed.

Lemma exec_all_price_kept qs d k r :
  price_history d !! k = Some r -> price_history (exec_all qs d) !! k = Some r.
Proof.
  revert d. induction qs as [|q qs IH]; intros d Hk; [done|].
  rewrite exec_all_cons. apply IH. by apply exec_price_kept.
Qed.

(** ** A list of statements, one key *)

Lemma exec_all_crypto_lookup qs d k :
  match last_upsert k qs with
  | None => cryptocurrencies (exec_all qs d) !! k = cryptocurrencies d !! k
  | Some (nm, img) =>
      exists mt oth,
        cryptocurrencies (exec_all qs d) !! k = Some (CryptoRow nm mt img true oth) /\
        forall r, cryptocurrencies d !! k = Some r ->
                  mt = market_type r /\ oth = others r
  end.
Proof.
  revert d. induction qs as [|q qs IH]; intros d; [done|].
  rewrite exec_all_cons. specialize (IH (exec q d)). simpl.
  destruct (last_upsert k qs) as [[nm img]|].
  - destruct IH as (mt & oth & Hl & Hfr). exists mt, oth. split; [done|].
    intros r Hr. destruct q as [sym nm' mt' img'|].
    + destruct (decide (sym = k)) as [->|Hne].
      * apply (Hfr (CryptoRow nm' (market_type r) img' true (others r))).
        rewrite exec_upsert_lookup, decide_True by done. by rewrite Hr.
      * apply Hfr. by rewrite exec_upsert_lookup, decide_False.
    + apply Hfr. by rewrite exec_insert_cryptos.
  - destruct q as [sym nm' mt' img'|].
    + rewrite exec_upsert_lookup in IH. case_decide as Hd; [|done].
      subst sym. rewrite IH.
      destruct (cryptocurrencies d !! k) as [r|].
      * eexists _, _. split; [done|]. by intros ? [= <-].
      * eexists _, _. split; [done|]. by intros ?.
    + by rewrite exec_insert_cryptos in IH.
Qed.

Lemma exec_all_price_fresh qs d d' k :
  price_history (exec_all qs d) !! k = None ->
  price_history d' !! k = None ->
  price_history (exec_all qs d') !! k = None.
Proof.
  revert d d'. induction qs as [|q qs IH]; intros d d' Hd Hd'; [done|].
  rewrite exec_all_cons in *. apply (IH (exec q d)); [done|].
  destruct q as [|sym tf o h l c v ts cr]; [done|].
  rewrite exec_insert_lookup, Hd'. case_decide as Hk; [|done].
  assert (is_Some (price_history (exec (InsertPrice sym tf o h l c v ts cr) d) !! k))
    as [r Hr].
  { rewrite exec_insert_lookup. destruct (price_history d !! k); [by eexists|].
    rewrite decide_True by done. by eexists. }
  apply (exec_all_price_kept qs) in Hr. congruence.
Qed.

(** ** Executing a list of statements twice *)

Lemma db_eq d d' :
  cryptocurrencies d = cryptocurrencies d' ->
  price_history d = price_history d' -> d = d'.
Proof. destruct d, d'. simpl. by intros -> ->. Qed.

Lemma exec_all_idempotent qs d :
  exec_all qs (exec_all qs d) = exec_all qs d.
Proof.
  apply db_eq; apply map_eq; intros k.
  - pose proof (exec_all_crypto_lookup qs d k) as H1.
    pose proof (exec_all_crypto_lookup qs (exec_all qs d) k) as H2.
    destruct (last_upsert k qs) as [[nm img]|]; [|done].
    destruct H1 as (mt & oth & Hl & _). destruct H2 as (mt' & oth' & Hl' & Hfr).
    destruct (Hfr _ Hl) as [-> ->]. by rewrite Hl, Hl'.
  - destruct (price_history (exec_all qs d) !! k) as [r|] eqn:Hk.
    + by apply exec_all_price_kept.
    + by apply (exec_all_price_fresh qs d).
Qed.

(** ** Reordering upserts *)

Lemma exec_upsert_comm sym1 nm1 mt1 img1 sym2 nm2 mt2 img2 d :
  sym1 <> sym2 ->
  exec (UpsertCrypto sym1 nm1 mt1 img1) (exec (UpsertCrypto sym2 nm2 mt2 img2) d) =
  exec (UpsertCrypto sym2 nm2 mt2 img2) (exec (UpsertCrypto sym1 nm1 mt1 img1) d).
Proof.
  intros Hne. apply db_eq; [|done]. apply map_eq; intros k.
  rewrite !exec_upsert_lookup.
  repeat case_decide; subst; try done.
Qed.

Lemma exec_all_permutation qs1 qs2 :
  qs1 ≡ₚ qs2 ->
  Forall (fun q => is_Some (upsert_key q)) qs1 ->
  NoDup (omap upsert_key qs1) ->
  forall d, exec_all qs1 d = exec_all qs2 d.
Proof.
  induction 1 as [|q qs1 qs2 Hp IH|q1 q2 qs|qs1 qs2 qs3 Hp12 IH12 Hp23 IH23];
    intros Hup Hnd d.
  - done.
  - rewrite !exec_all_cons. apply Forall_cons in Hup as [[k Hk] Hup].
    cbn [omap list_omap] in Hnd. rewrite Hk in Hnd.
    apply NoDup_cons in Hnd as [_ Hnd]. by apply IH.
  - rewrite !exec_all_cons. f_equal.
    apply Forall_cons in Hup as [[k2 Hk2] Hup].
    apply Forall_cons in Hup as [[k1 Hk1] Hup].
    cbn [omap list_omap] in Hnd. rewrite Hk1, Hk2 in Hnd.
    apply NoDup_cons in Hnd as [Hnin _].
    destruct q1 as [s1 n1 m1 i1|]; [|done]. destruct q2 as [s2 n2 m2 i2|]; [|done].
    simpl in Hk1, Hk2. injection Hk1 as <-. injection Hk2 as <-.
    apply exec_upsert_comm. intros ->. apply Hnin. by left.
  - rewrite IH12 by done. apply IH23.
    + by rewrite <- Hp12.
    + by rewrite <- Hp12.
Qed.

(** ** Counting the rows of [price_history] *)

Lemma exec_all_price_size qs d :
  Forall (fun q => is_Some (insert_key q)) qs ->
  (size (price_history (exec_all qs d)) + duplicates qs d =
   size (price_history d) + length qs)%nat.
Proof.
  intros Hqs. revert d. induction Hqs as [|q qs Hq _ IH]; intros d.
  - simpl. lia.
  - rewrite exec_all_cons. specialize (IH (exec q d)).
    destruct q as [|sym tf o h l c v ts cr]; [by destruct Hq|].
    cbn [duplicates length]. unfold skipped. cbn [insert_key].
    destruct (price_history d !! (sym, tf, ts)) as [r|] eqn:Hk.
    + rewrite bool_decide_eq_true_2 by by eexists.
      assert (exec (InsertPrice sym tf o h l c v ts cr) d = d) as Hid
        by (simpl; by rewrite Hk).
      rewrite Hid in *. lia.
    + rewrite bool_decide_eq_false_2 by (by intros [? ?]).
      assert (size (price_history (exec (InsertPrice sym tf o h l c v ts cr) d))
              = S (size (price_history d))) as Hsz.
      { simpl. rewrite Hk. simpl. by apply map_size_insert_None. }
      lia.
Qed.

End Store.

Section Pipeline.
Context `{H : Host}.
Variable w : world.

Ltac keeps_step :=
  lazymatch goal with
  | |- keeps _ (mret _) => apply keeps_ret
  | |- keeps _ (lift _) => apply keeps_lift
  | |- keeps _ (symbols_append _) => apply keeps_symbols_append
  | |- keeps _ symbols_clear => apply keeps_symbols_clear
  | |- keeps _ symbols_read => apply keeps_symbols_read
  | |- keeps _ (execute _) => apply keeps_execute
  | |- keeps _ (emit _) => apply keeps_emit
  | |- keeps _ (for_ _ _) => apply keeps_for; intros ?
  | |- keeps _ (_ ≫= _) => apply keeps_bind; [|intros ?]
  end.

(** ** No part of the pipeline commits *)

Lemma keeps_requests_get (P : event -> Prop) (rq : request) :
  P (Requested rq) -> keeps P (requests_get w rq).
Proof.
  intros HP. unfold requests_get. repeat keeps_step; try done.
  destruct (answer w rq); keeps_step.
Qed.

Lemma keeps_response_json (P : event -> Prop) (r : Z * option (json pyfloat)) :
  keeps P (response_json r).
Proof. unfold response_json. destruct (snd r); keeps_step. Qed.

Lemma keeps_collect_symbol (P : event -> Prop) (coin : json pyfloat) :
  keeps P (collect_symbol coin).
Proof. unfold collect_symbol. repeat keeps_step. Qed.

Lemma keeps_fetch_universe : keeps before_import (fetch_universe w).
Proof.
  unfold fetch_universe. repeat keeps_step.
  - by apply keeps_requests_get.
  - apply keeps_response_json.
  - apply keeps_collect_symbol.
Qed.

Lemma keeps_reconcile_coin (coin : json pyfloat) :
  keeps before_import (reconcile_coin coin).
Proof. unfold reconcile_coin. repeat keeps_step. done. Qed.

Lemma keeps_reconcile (coins : json pyfloat) :
  keeps before_import (reconcile coins).
Proof. unfold reconcile. repeat keeps_step. apply keeps_reconcile_coin. Qed.

Lemma keeps_import_candle (symbol tf_name : string) (candle : json pyfloat) :
  keeps before_import (import_candle symbol tf_name candle).
Proof. unfold import_candle. repeat keeps_step. done. Qed.

Lemma keeps_fetch_binance_candles (symbol interval : string) (limit : Z) :
  keeps not_commit (fetch_binance_candles w symbol interval limit).
Proof.
  unfold fetch_binance_candles. keeps_step; [by apply keeps_requests_get|].
  case_decide; [apply keeps_response_json|keeps_step].
Qed.

Lemma before_import_not_commit (e : event) : before_import e -> not_commit e.
Proof. by intros [_ ?]. Qed.

Lemma keeps_import_history (symbol : string) (tf : string * string) :
  keeps not_commit (import_history w symbol tf).
Proof.
  unfold import_history. repeat keeps_step; try done.
  - apply keeps_fetch_binance_candles.
  - eapply keeps_weaken; [apply before_import_not_commit|].
    apply keeps_import_candle.
Qed.

Lemma keeps_import_all (syms : list string) :
  keeps not_commit (import_all w syms).
Proof. unfold import_all. repeat keeps_step. apply keeps_import_history. Qed.

Lemma keeps_pipeline : keeps not_commit (pipeline w).
Proof.
  unfold pipeline. repeat keeps_step.
  - eapply keeps_weaken; [apply before_import_not_commit|].
    apply keeps_fetch_universe.
  - eapply keeps_weaken; [apply before_import_not_commit|].
    apply keeps_reconcile.
  - apply keeps_import_all.
Qed.

(** ** The single commit *)

Lemma run_unfold (d : db) :
  run w d =
  match pipeline w (init d) with
  | (Ok _, s) =>
      (Ok tt, State (symbols s) (txn s) (txn s)
                    ((log s ++ [Committed]) ++ [Printed "Importação concluída!"]))
  | (Raise e, s) => (Raise e, s)
  end.
Proof.
  unfold run, main. rewrite bind_run.
  by destruct (pipeline w (init d)) as [[[]|e] s].
Qed.

Lemma run_ok_committed (d : db) (s : state) :
  run w d = (Ok tt, s) -> txn s = stored s.
Proof.
  rewrite run_unfold. destruct (pipeline w (init d)) as [[[]|e] s1]; [|done].
  by intros [= <-].
Qed.

(** What a run leaves: the committed store and the log, by outcome. *)
Lemma run_outcome (d : db) :
  match run w d with
  | (Raise _, s) => stored s = d /\ Forall not_commit (log s)
  | (Ok _, s) =>
      exists evs,
        log s = (evs ++ [Committed; Printed "Importação concluída!"])%list /\
        Forall not_commit evs /\
        stored s = exec_all (stmts_of evs) d
  end.
Proof.
  unfold run, main. rewrite bind_run.
  destruct (keeps_pipeline (init d)) as (evs & Hl & Hp & Hs & Ht).
  destruct (pipeline w (init d)) as [[[]|e] s1]; simpl in *.
  - exists evs. rewrite Hl, Ht. simpl. split; [|done].
    by rewrite <- app_assoc.
  - rewrite Hl, Hs. done.
Qed.

(** C10: the writes of a run reach the committed store only through the one
    commit that follows the whole import loop.  A run that raises leaves the
    committed store as it found it and has logged no commit; a run that
    completes has logged exactly one commit, after every statement, and the
    committed store is then the initial store with the statements of the run
    executed in order. *)
Theorem commit_is_all_or_nothing (d : db) :
  match run w d with
  | (Raise _, s) => stored s = d /\ Forall not_commit (log s)
  | (Ok _, s) =>
      exists evs,
        log s = (evs ++ [Committed; Printed "Importação concluída!"])%list /\
        Forall not_commit evs /\
        stored s = exec_all (stmts_of evs) d
  end.
Proof. exact (run_outcome d). Qed.

End Pipeline.

Section Oblivious.
Context `{H : Host}.

(** ** The control flow does not read the store *)

Lemma agree_refl (s : state) : agree s s.
Proof. by split. Qed.

Lemma oblivious_ret {A} (a : A) : oblivious (mret a : M A).
Proof. intros s1 s2 Hag. by split. Qed.

Lemma oblivious_lift {A} (r : result A) : oblivious (lift r).
Proof. intros s1 s2 Hag. by split. Qed.

Lemma oblivious_bind {A B} (m : M A) (f : A -> M B) :
  oblivious m -> (forall a, oblivious (f a)) -> oblivious (m ≫= f).
Proof.
  intros Hm Hf s1 s2 Hag. rewrite !bind_run.
  destruct (Hm s1 s2 Hag) as [Hr Ha].
  destruct (m s1) as [[a|e] s1'], (m s2) as [[a'|e'] s2'];
    simpl in *; try discriminate.
  - injection Hr as <-. by apply Hf.
  - injection Hr as <-. by split.
Qed.

Lemma oblivious_for {A} (l : list A) (body : A -> M unit) :
  (forall x, oblivious (body x)) -> oblivious (for_ l body).
Proof.
  intros Hb. induction l as [|x l IH]; [apply oblivious_ret|].
  apply oblivious_bind; [apply Hb|intros _; exact IH].
Qed.

Lemma oblivious_emit (e : event) : oblivious (emit e).
Proof. intros s1 s2 [Hs Hl]. repeat split; simpl; congruence. Qed.

Lemma oblivious_execute (q : stmt pyfloat datetime) : oblivious (execute q).
Proof.
  intros s1 s2 [Hs Hl]. unfold execute.
  destruct (rejects q); repeat split; simpl; congruence.
Qed.

Lemma oblivious_commit : oblivious commit.
Proof. intros s1 s2 [Hs Hl]. repeat split; simpl; congruence. Qed.

Lemma oblivious_symbols_append (x : string) : oblivious (symbols_append x).
Proof. intros s1 s2 [Hs Hl]. repeat split; simpl; congruence. Qed.

Lemma oblivious_symbols_clear : oblivious symbols_clear.
Proof. intros s1 s2 [Hs Hl]. repeat split; simpl; congruence. Qed.

Lemma oblivious_symbols_read : oblivious symbols_read.
Proof. intros s1 s2 [Hs Hl]. repeat split; simpl; congruence. Qed.

Variable w : world.

Ltac oblivious_step :=
  lazymatch goal with
  | |- oblivious (mret _) => apply oblivious_ret
  | |- oblivious (lift _) => apply oblivious_lift
  | |- oblivious (symbols_append _) => apply oblivious_symbols_append
  | |- oblivious symbols_clear => apply oblivious_symbols_clear
  | |- oblivious symbols_read => apply oblivious_symbols_read
  | |- oblivious (execute _) => apply oblivious_execute
  | |- oblivious commit => apply oblivious_commit
  | |- oblivious (emit _) => apply oblivious_emit
  | |- oblivious (for_ _ _) => apply oblivious_for; intros ?
  | |- oblivious (_ ≫= _) => apply oblivious_bind; [|intros ?]
  | |- oblivious (match ?x with _ => _ end) => destruct x
  | |- oblivious (if ?x then _ else _) => destruct x
  end.

Lemma oblivious_main : oblivious (main w).
Proof.
  unfold main, pipeline, fetch_universe, reconcile, import_all.
  repeat oblivious_step.
  - unfold requests_get. repeat oblivious_step.
  - unfold response_json. repeat oblivious_step.
  - unfold collect_symbol. repeat oblivious_step.
  - unfold reconcile_coin. repeat oblivious_step.
  - unfold import_history, fetch_binance_candles, requests_get, response_json,
      import_candle.
    repeat oblivious_step.
Qed.

(** ** Running the script again *)

(** C2: a second run against the same provider answers, started on the store
    the first run left, behaves as the first and leaves the same store: every
    candle insert of the second run finds its key and is skipped, and every
    upsert rewrites the name, image and active flag the first run wrote.  The
    candles stored before a run are still there, unchanged, after it. *)
Theorem rerun_is_idempotent (d : db) :
  run w (stored (snd (run w d))) = run w d /\
  price_history d ⊆ price_history (stored (snd (run w d))).
Proof.
  pose proof (run_outcome w d) as Hrun.
  destruct (run w d) as [[[]|e] s] eqn:Hd; simpl.
  2:{ by destruct Hrun as [-> _]. }
  destruct Hrun as (evs & Hl & _ & Hs). split.
  - pose proof (run_outcome w (stored s)) as Hrun2.
    destruct (oblivious_main (init d) (init (stored s))) as [Hr Hag];
      [by split|].
    fold (run w d) in Hr, Hag. fold (run w (stored s)) in Hr, Hag.
    rewrite Hd in Hr, Hag. simpl in Hr, Hag.
    pose proof (run_ok_committed w d s Hd) as Ht.
    destruct (run w (stored s)) as [r2 s2] eqn:Hd2. simpl in Hr, Hag. subst r2.
    pose proof (run_ok_committed w _ s2 Hd2) as Ht2.
    destruct Hrun2 as (evs2 & Hl2 & _ & Hs2). destruct Hag as [Hsym Hlog].
    assert (evs2 = evs) as ->.
    { rewrite Hl, Hl2 in Hlog. by apply app_inv_tail in Hlog. }
    rewrite Hs in Hs2. rewrite exec_all_idempotent, <- Hs in Hs2.
    f_equal. destruct s, s2; simpl in *; congruence.
  - rewrite Hs. apply map_subseteq_spec. intros k r Hk.
    by apply exec_all_price_kept.
Qed.

End Oblivious.

Section Loops.
Context `{H : Host}.

(** ** Loops whose body computes a value and then moves the state *)

Lemma for_steps {A Y} (g : A -> result Y) (step : Y -> state -> state)
    (body : A -> M unit) :
  (forall x s, body x s =
     match g x with
     | Ok y => (Ok tt, step y s)
     | Raise e => (Raise e, s)
     end) ->
  forall l s s',
    for_ l body s = (Ok tt, s') <->
    Forall (fun x => is_Some (ok (g x))) l /\
    s' = foldl (fun s y => step y s) s (omap (fun x => ok (g x)) l).
Proof.
  intros Hb. induction l as [|x l IH]; intros s s'.
  - rewrite for_nil. simpl. split.
    + intros [= <-]. by split.
    + by intros [_ ->].
  - rewrite for_cons, Hb. rewrite Forall_cons. simpl.
    destruct (g x) as [y|e] eqn:Hg; simpl.
    + rewrite IH. split.
      * intros [Hl ->]. split; [|done]. split; [by eexists|done].
      * by intros [[_ Hl] ->].
    + split; [done|]. by intros [[[? ?] _] _].
Qed.

Lemma collect_symbol_run (coin : json pyfloat) (s : state) :
  collect_symbol coin s =
  match binance_symbol coin with
  | Ok sym => (Ok tt, collected sym s)
  | Raise e => (Raise e, s)
  end.
Proof.
  unfold collect_symbol. rewrite bind_run. unfold lift.
  by destruct (binance_symbol coin).
Qed.

Lemma reconcile_coin_run (coin : json pyfloat) (s : state) :
  reconcile_coin coin s =
  match sent (upsert_of coin) with
  | Ok q => (Ok tt, reconciled q s)
  | Raise e => (Raise e, s)
  end.
Proof.
  unfold reconcile_coin, upsert_of, sent. rewrite bind_run. unfold lift.
  destruct (binance_symbol coin) as [sym|]; [|done].
  rewrite bind_run. destruct (getitem coin "name") as [nm|]; [|done].
  rewrite bind_run. destruct (dict_get coin "image" (JStr "")) as [img|]; [|done].
  rewrite bind_run. unfold execute. by destruct (rejects _).
Qed.

Lemma import_candle_run (symbol tf_name : string) (candle : json pyfloat) (s : state) :
  import_candle symbol tf_name candle s =
  match sent (insert_of symbol tf_name candle) with
  | Ok q => (Ok tt, inserted q s)
  | Raise e => (Raise e, s)
  end.
Proof.
  unfold import_candle, insert_of, sent.
  repeat (rewrite bind_run; unfold lift;
          match goal with |- context [match ?r with Ok _ => _ | Raise _ => _ end] =>
            destruct r; [|done] end).
  unfold execute. by destruct (rejects _).
Qed.

Lemma foldl_collected (syms : list string) (s : state) :
  foldl (fun s y => collected y s) s syms =
  State (symbols s ++ syms) (txn s) (stored s) (log s).
Proof.
  revert s. induction syms as [|x l IH]; intros s; simpl.
  - rewrite app_nil_r. by destruct s.
  - rewrite IH. simpl. by rewrite <- app_assoc.
Qed.

Lemma foldl_reconciled (qs : list (stmt pyfloat datetime)) (s : state) :
  foldl (fun s q => reconciled q s) s qs =
  State (symbols s ++ omap upsert_key qs) (exec_all qs (txn s)) (stored s)
        (log s ++ map Executed qs).
Proof.
  revert s. induction qs as [|q l IH]; intros s; simpl.
  - rewrite !app_nil_r. by destruct s.
  - rewrite IH. simpl. rewrite <- !app_assoc. simpl.
    by destruct (upsert_key q).
Qed.

Lemma foldl_inserted (qs : list (stmt pyfloat datetime)) (s : state) :
  foldl (fun s q => inserted q s) s qs =
  State (symbols s) (exec_all qs (txn s)) (stored s) (log s ++ map Executed qs).
Proof.
  revert s. induction qs as [|q l IH]; intros s; simpl.
  - rewrite !app_nil_r. by destruct s.
  - rewrite IH. simpl. by rewrite <- !app_assoc.
Qed.

(** ** The three inner loops, when they complete *)

Lemma collect_loop_ok (cs : list (json pyfloat)) (s s' : state) :
  for_ cs collect_symbol s = (Ok tt, s') <->
  Forall (fun c => is_Some (ok (binance_symbol c))) cs /\
  s' = State (symbols s ++ symbols_of cs) (txn s) (stored s) (log s).
Proof.
  rewrite (for_steps binance_symbol collected) by apply collect_symbol_run.
  by rewrite foldl_collected.
Qed.

Lemma reconcile_loop_ok (cs : list (json pyfloat)) (s s' : state) :
  for_ cs reconcile_coin s = (Ok tt, s') <->
  Forall (fun c => is_Some (ok (sent (upsert_of c)))) cs /\
  s' = State (symbols s ++ omap upsert_key (upserts_of cs))
             (exec_all (upserts_of cs) (txn s)) (stored s)
             (log s ++ map Executed (upserts_of cs)).
Proof.
  rewrite (for_steps (fun c => sent (upsert_of c)) reconciled)
    by apply reconcile_coin_run.
  by rewrite foldl_reconciled.
Qed.

Lemma candle_loop_ok (symbol tf_name : string) (cs : list (json pyfloat)) (s s' : state) :
  for_ cs (import_candle symbol tf_name) s = (Ok tt, s') <->
  Forall (fun c => is_Some (ok (sent (insert_of symbol tf_name c)))) cs /\
  s' = State (symbols s) (exec_all (inserts_of symbol tf_name cs) (txn s))
             (stored s) (log s ++ map Executed (inserts_of symbol tf_name cs)).
Proof.
  rewrite (for_steps (fun c => sent (insert_of symbol tf_name c)) inserted)
    by apply import_candle_run.
  by rewrite foldl_inserted.
Qed.

End Loops.

Section Runs.
Context `{H : Host}.
Variable w : world.

(** ** The requests *)

Lemma requests_get_run (rq : request) (s : state) :
  requests_get w rq s =
  match answer w rq with
  | Unreachable =>
      (Raise ConnectionError,
       State (symbols s) (txn s) (stored s) (log s ++ [Requested rq]))
  | Response code body =>
      (Ok (code, body),
       State (symbols s) (txn s) (stored s) (log s ++ [Requested rq]))
  end.
Proof. unfold requests_get. rewrite bind_run. simpl. by destruct (answer w rq). Qed.

Lemma fetch_binance_candles_run (symbol interval : string) (limit : Z) (s : state) :
  fetch_binance_candles w symbol interval limit s =
  (candles_of w symbol interval limit,
   State (symbols s) (txn s) (stored s)
         (log s ++ [Requested (Klines symbol interval limit)])).
Proof.
  unfold fetch_binance_candles, candles_of. rewrite bind_run, requests_get_run.
  simpl. destruct (binance w symbol interval limit) as [|code body]; [done|].
  simpl. case_decide; [|done]. unfold response_json. simpl.
  by destruct body.
Qed.

(** ** The import of one pair *)

Lemma import_history_ok (symbol : string) (tf : string * string) (s s' : state) :
  import_history w symbol tf s = (Ok tt, s') <->
  exists cs,
    raw_candles w symbol tf = Ok cs /\
    Forall (fun c => is_Some (ok (sent (insert_of symbol (fst tf) c)))) cs /\
    s' = State (symbols s) (exec_all (inserts_of symbol (fst tf) cs) (txn s))
               (stored s) (log s ++ import_events symbol tf cs).
Proof.
  unfold import_history, raw_candles, import_events.
  rewrite bind_run. cbn [emit]. rewrite bind_run, fetch_binance_candles_run.
  cbn [symbols txn stored log].
  destruct (candles_of w symbol (snd tf) 200) as [v|e].
  2:{ split; [done|]. by intros (? & ? & _). }
  rewrite bind_run. unfold lift. destruct (iter v) as [cs|e].
  2:{ split; [done|]. by intros (? & ? & _). }
  rewrite bind_run.
  destruct (for_ cs (import_candle symbol (fst tf)) _) as [[[]|e] s2] eqn:Hloop.
  - apply candle_loop_ok in Hloop as [Hall ->]. cbn [emit symbols txn stored log].
    split.
    + intros [= <-]. exists cs. split; [done|]. split; [done|].
      f_equal. rewrite <- !app_assoc. reflexivity.
    + intros (cs' & [= <-] & _ & ->). unfold emit. simpl. do 2 f_equal.
      rewrite <- !app_assoc. reflexivity.
  - split; [done|]. intros (cs' & [= <-] & Hall & _).
    pose proof (proj2 (candle_loop_ok symbol (fst tf) cs
      (State (symbols s) (txn s) (stored s)
         ((log s ++ [Printed ("Importando candles reais para " ++ symbol ++ " - " ++ fst tf ++ "...")])
          ++ [Requested (Klines symbol (snd tf) 200)])) _) (conj Hall eq_refl)) as Hok.
    cbn [symbols txn stored log] in Hok. congruence.
Qed.

(** ** The universe and the registry *)

Lemma fetch_universe_ok (s s' : state) (coins : json pyfloat) :
  fetch_universe w s = (Ok coins, s') <->
  exists code cs,
    coingecko w = Response code (Some coins) /\
    iter coins = Ok cs /\
    Forall (fun c => is_Some (ok (binance_symbol c))) cs /\
    s' = State (symbols_of cs) (txn s) (stored s) (log s ++ [Requested Markets]).
Proof.
  unfold fetch_universe. rewrite bind_run, requests_get_run. cbn [answer].
  destruct (coingecko w) as [|code body].
  { split; [done|]. by intros (? & ? & ? & _). }
  rewrite bind_run. unfold response_json. cbn [snd].
  destruct body as [v|]; simpl.
  2:{ split; [done|]. by intros (? & ? & ? & _). }
  destruct (iter v) as [cs|e] eqn:Hit.
  2:{ split; [done|]. intros (? & ? & [= <- <-] & ? & _). congruence. }
  rewrite bind_run. unfold symbols_clear. cbn [symbols txn stored log].
  rewrite bind_run. unfold lift. rewrite bind_run.
  destruct (for_ cs collect_symbol _) as [[[]|e] s2] eqn:Hloop.
  - apply collect_loop_ok in Hloop as [Hall ->]. simpl. split.
    + intros [= <- <-]. by exists code, cs.
    + intros (? & cs' & [= <- <-] & Hcs & _ & ->).
      assert (cs' = cs) as -> by congruence. done.
  - split; [done|]. intros (? & cs' & [= <- <-] & Hcs & Hall & _).
    assert (cs' = cs) as -> by congruence.
    pose proof (proj2 (collect_loop_ok cs
      (State [] (txn s) (stored s) (log s ++ [Requested Markets])) _)
      (conj Hall eq_refl)) as Hok.
    simpl in Hok. congruence.
Qed.

Lemma reconcile_ok (coins : json pyfloat) (s s' : state) :
  reconcile coins s = (Ok tt, s') <->
  exists cs,
    iter coins = Ok cs /\
    Forall (fun c => is_Some (ok (sent (upsert_of c)))) cs /\
    s' = State (symbols s ++ omap upsert_key (upserts_of cs))
               (exec_all (upserts_of cs) (txn s)) (stored s)
               (log s ++ map Executed (upserts_of cs)).
Proof.
  unfold reconcile. rewrite bind_run. unfold lift.
  destruct (iter coins) as [cs|e].
  2:{ split; [done|]. by intros (? & ? & _). }
  rewrite reconcile_loop_ok. split.
  - intros [Hall ->]. by exists cs.
  - by intros (cs' & [= <-] & Hall & ->).
Qed.

Lemma upsert_of_shape (c : json pyfloat) (q : stmt pyfloat datetime) :
  sent (upsert_of c) = Ok q ->
  exists sym nm img,
    binance_symbol c = Ok sym /\ getitem c "name" = Ok nm /\
    dict_get c "image" (JStr "") = Ok img /\
    rejects q = false /\ q = UpsertCrypto sym nm "Spot" img.
Proof.
  unfold sent, upsert_of.
  destruct (binance_symbol c) as [sym|]; [|done].
  destruct (getitem c "name") as [nm|]; [|done].
  destruct (dict_get c "image" (JStr "")) as [img|]; [|done].
  destruct (rejects _) eqn:Hr; [done|]. intros [= <-]. by exists sym, nm, img.
Qed.

Lemma upserts_of_keys (cs : list (json pyfloat)) :
  Forall (fun c => is_Some (ok (sent (upsert_of c)))) cs ->
  omap upsert_key (upserts_of cs) = symbols_of cs.
Proof.
  unfold upserts_of, symbols_of. induction 1 as [|c cs [q Hq] _ IH]; [done|].
  cbn [omap list_omap]. destruct (sent (upsert_of c)) as [q'|] eqn:Hs; [|done].
  apply upsert_of_shape in Hs as (sym & nm & img & -> & _ & _ & _ & ->).
  simpl. by rewrite <- IH.
Qed.

Lemma upserts_of_upserts (cs : list (json pyfloat)) :
  Forall (fun q => is_Some (upsert_key q)) (upserts_of cs).
Proof.
  unfold upserts_of. induction cs as [|c cs IH]; [constructor|].
  cbn [omap list_omap]. destruct (sent (upsert_of c)) as [q|] eqn:Hs; [|done].
  apply upsert_of_shape in Hs as (sym & nm & img & _ & _ & _ & _ & ->).
  simpl. constructor; [by eexists|done].
Qed.

Lemma import_all_cross (syms : list string) (s : state) :
  import_all w syms s =
  for_ (cross syms) (fun p => import_history w (fst p) (snd p)) s.
Proof.
  unfold import_all, cross. rewrite <- for_concat.
  apply for_ext. intros sym s1. by rewrite for_map.
Qed.

Lemma insert_of_shape (symbol tf_name : string) (c : json pyfloat)
    (q : stmt pyfloat datetime) :
  sent (insert_of symbol tf_name c) = Ok q ->
  exists o h l cl v t, q = InsertPrice symbol tf_name o h l cl v t t.
Proof.
  unfold sent, insert_of.
  repeat match goal with
         | |- context [match getindex ?a ?i with Ok _ => _ | Raise _ => _ end] =>
             destruct (getindex a i); [|done]
         | |- context [match float_of ?a with Ok _ => _ | Raise _ => _ end] =>
             destruct (float_of a); [|done]
         | |- context [match utcfromtimestamp_ms ?a with Ok _ => _ | Raise _ => _ end] =>
             destruct (utcfromtimestamp_ms a); [|done]
         end.
  destruct (rejects _); [done|]. intros [= <-]. by repeat eexists.
Qed.

Lemma inserts_of_keys (symbol tf_name : string) (cs : list (json pyfloat)) :
  Forall (fun q => is_Some (insert_key q)) (inserts_of symbol tf_name cs).
Proof.
  unfold inserts_of. induction cs as [|c cs IH]; [constructor|].
  cbn [omap list_omap].
  destruct (sent (insert_of symbol tf_name c)) as [q|e] eqn:Hq; simpl; [|done].
  constructor; [|done].
  apply insert_of_shape in Hq as (o & h & l & cl & v & t & ->). by eexists.
Qed.

Lemma omap_all_length {A B} (f : A -> option B) (l : list A) :
  Forall (fun x => is_Some (f x)) l -> length (omap f l) = length l.
Proof.
  induction 1 as [|x l [y Hy] _ IH]; [done|].
  cbn [omap list_omap]. rewrite Hy. simpl. by rewrite IH.
Qed.

Lemma pipeline_run (s : state) :
  pipeline w s =
  match fetch_universe w s with
  | (Ok coins, s1) =>
      match reconcile coins s1 with
      | (Ok _, s2) => import_all w (symbols s2) s2
      | (Raise e, s2) => (Raise e, s2)
      end
  | (Raise e, s1) => (Raise e, s1)
  end.
Proof.
  unfold pipeline. rewrite bind_run.
  destruct (fetch_universe w s) as [[coins|e] s1]; [|done].
  rewrite bind_run. by destruct (reconcile coins s1) as [[[]|e] s2].
Qed.

(** The status code of the universe response is never read. *)
Lemma universe_status_ignored (code code' : Z) (body : option (json pyfloat))
    (klines : string -> string -> Z -> http pyfloat) (d : db) :
  run (World (Response code body) klines) d =
  run (World (Response code' body) klines) d.
Proof. reflexivity. Qed.

(** ** The invocations of the import *)

Lemma import_history_klines (symbol : string) (tf : string * string) (s s' : state) :
  import_history w symbol tf s = (Ok tt, s') ->
  klines_of (log s') = (klines_of (log s) ++ [(symbol, snd tf)])%list.
Proof.
  intros Hrun. apply import_history_ok in Hrun as (cs & _ & _ & ->).
  cbn [log]. unfold import_events.
  rewrite !klines_of_app, klines_of_executed. reflexivity.
Qed.

Lemma import_all_klines (syms : list string) (s s' : state) :
  import_all w syms s = (Ok tt, s') ->
  klines_of (log s') = (klines_of (log s) ++ pairs_of syms)%list.
Proof.
  unfold import_all, pairs_of.
  apply (for_collects (fun s => klines_of (log s))
           (fun sym => map (fun tf => (sym, snd tf)) timeframes)).
  intros sym s1 s2 Hin.
  apply (for_collects (fun s => klines_of (log s))
           (fun tf => [(sym, snd tf)])) with (l := timeframes) in Hin.
  - exact Hin.
  - intros tf s3 s4. apply import_history_klines.
Qed.

Lemma pairs_of_length (syms : list string) :
  length (pairs_of syms) = (6 * length syms)%nat.
Proof.
  unfold pairs_of. induction syms as [|sym syms IH]; [done|].
  cbn [map concat]. rewrite length_app, IH. simpl. lia.
Qed.

(** C1 (what the code does): a run that completes has requested candles for
    every pair of the cross product of the list [symbols] with the six
    timeframes, in order, and [symbols] holds the symbol of every coin of
    the universe twice: once from the first loop (line 31) and once more
    from the reconcile loop (line 58).  The import is invoked twelve times
    per coin: twice per (symbol, timeframe) pair. *)
Theorem imports_per_run (d : db) (s : state) :
  run w d = (Ok tt, s) ->
  exists code coins cs,
    coingecko w = Response code (Some coins) /\
    iter coins = Ok cs /\
    klines_of (log s) = pairs_of (symbols_of cs ++ symbols_of cs) /\
    length (klines_of (log s)) = (12 * length cs)%nat.
Proof.
  rewrite run_unfold, pipeline_run.
  destruct (fetch_universe w (init d)) as [[coins|e] s1] eqn:Hf; [|done].
  apply fetch_universe_ok in Hf as (code & cs & Hcg & Hit & Hsym & ->).
  destruct (reconcile coins _) as [[[]|e] s2] eqn:Hr; [|done].
  apply reconcile_ok in Hr as (cs' & Hit' & Hup & ->).
  assert (cs' = cs) as -> by congruence.
  cbn [symbols txn stored log init]. rewrite upserts_of_keys by done.
  destruct (import_all w _ _) as [[[]|e] s3] eqn:Hi; [|done].
  apply import_all_klines in Hi. cbn [log] in Hi.
  intros [= <-]. exists code, coins, cs. split; [done|]. split; [done|].
  cbn [log].
  assert (klines_of (log s3) = pairs_of (symbols_of cs ++ symbols_of cs)) as Hk.
  { rewrite Hi. rewrite klines_of_app, klines_of_executed. reflexivity. }
  rewrite !klines_of_app, Hk. simpl. rewrite !app_nil_r. split; [done|].
  rewrite pairs_of_length, length_app.
  unfold symbols_of. rewrite omap_all_length by done. lia.
Qed.

(** ** A statement the store refuses *)

(** C3 (as the code has it): the reconcile loop has no handler.  When the
    upsert of a coin fails, and the coins before it went through, the
    exception ends the run there: the upserts of the coins before it are the
    only statements executed, none is executed for the coins after it, no
    candle is requested, and nothing is committed. *)
Theorem failed_upsert_aborts_run (d : db) (code : Z)
    (pre post : list (json pyfloat)) (c : json pyfloat) (e : exn) :
  coingecko w = Response code (Some (JArr (pre ++ c :: post))) ->
  Forall (fun c => is_Some (ok (binance_symbol c))) (pre ++ c :: post) ->
  Forall (fun c => is_Some (ok (sent (upsert_of c)))) pre ->
  sent (upsert_of c) = Raise e ->
  run w d =
  (Raise e,
   State (symbols_of (pre ++ c :: post) ++ symbols_of pre)
         (exec_all (upserts_of pre) d) d
         ([Requested Markets] ++ map Executed (upserts_of pre))).
Proof.
  intros Hcg Hsym Hpre Hc.
  rewrite run_unfold, pipeline_run.
  pose proof (proj2 (fetch_universe_ok (init d) _ (JArr (pre ++ c :: post)))
    (ex_intro _ code (ex_intro _ (pre ++ c :: post)%list
       (conj Hcg (conj eq_refl (conj Hsym eq_refl)))))) as ->.
  cbn [init symbols txn stored log].
  unfold reconcile. rewrite bind_run. unfold lift. cbn [iter].
  rewrite for_app.
  pose proof (proj2 (reconcile_loop_ok pre
    (State (symbols_of (pre ++ c :: post)) d d ([] ++ [Requested Markets])) _)
    (conj Hpre eq_refl)) as ->.
  rewrite for_cons, reconcile_coin_run, Hc. cbn [symbols txn stored log].
  by rewrite upserts_of_keys.
Qed.

(** ** An upsert on a stored row *)

(** C6: when the symbol of a coin is already in [cryptocurrencies], the
    round of the reconcile loop for that coin replaces the row's name and
    image by the coin's, sets [active], and keeps the row's [market_type]
    and every column the statement does not name; the other rows, the table
    [price_history] and the committed store are unchanged. *)
Theorem upsert_updates_in_place (coin : json pyfloat) (s : state)
    (sym : string) (nm img : json pyfloat) (r : crypto_row) :
  binance_symbol coin = Ok sym ->
  getitem coin "name" = Ok nm ->
  dict_get coin "image" (JStr "") = Ok img ->
  rejects (UpsertCrypto sym nm "Spot" img) = false ->
  cryptocurrencies (txn s) !! sym = Some r ->
  exists s',
    reconcile_coin coin s = (Ok tt, s') /\
    cryptocurrencies (txn s') =
      <[sym := CryptoRow nm (market_type r) img true (others r)]>
        (cryptocurrencies (txn s)) /\
    price_history (txn s') = price_history (txn s) /\
    stored s' = stored s.
Proof.
  intros Hsym Hnm Himg Hrej Hrow.
  rewrite reconcile_coin_run. unfold upsert_of, sent.
  rewrite Hsym, Hnm, Himg, Hrej. eexists. split; [reflexivity|].
  cbn [reconciled txn stored exec]. by rewrite Hrow.
Qed.

(** ** The order of a batch *)

(** C8 (as the code has it): for a batch of coins with pairwise distinct
    symbols, the reconcile loop leaves the same tables whatever the order of
    the batch: if it completes on one order it completes on every
    permutation, with the same transaction state. *)
Theorem reconcile_order_irrelevant (cs1 cs2 : list (json pyfloat)) (s s1 : state) :
  cs1 ≡ₚ cs2 ->
  NoDup (symbols_of cs1) ->
  reconcile (JArr cs1) s = (Ok tt, s1) ->
  exists s2,
    reconcile (JArr cs2) s = (Ok tt, s2) /\
    txn s2 = txn s1 /\ stored s2 = stored s1.
Proof.
  intros Hp Hnd Hrun.
  apply reconcile_ok in Hrun as (cs & [= <-] & Hall & ->).
  eexists. split.
  - apply reconcile_ok. exists cs2. split; [done|]. split; [|reflexivity].
    by rewrite <- Hp.
  - cbn [txn stored]. split; [|done]. symmetry.
    apply exec_all_permutation.
    + unfold upserts_of. by rewrite Hp.
    + apply upserts_of_upserts.
    + by rewrite upserts_of_keys.
Qed.

(** ** A fetch that fails or finds nothing *)


Lemma import_history_nothing (symbol : string) (tf : string * string) (s : state) :
  raw_candles w symbol tf = Ok [] ->
  import_history w symbol tf s =
  (Ok tt,
   State (symbols s) (txn s) (stored s)
         (log s ++
          [Printed ("Importando candles reais para " ++ symbol ++ " - " ++ fst tf ++ "...");
           Requested (Klines symbol (snd tf) 200);
           Slept 200])).
Proof.
  intros Hraw. apply import_history_ok. exists []. split; [done|].
  split; [constructor|]. done.
Qed.








(** ** Attempted, written, skipped *)

(** C9 (as the code has it): the import of a pair returns no value.  When it
    completes, it has executed one insert per fetched candle, and the number
    of rows of [price_history] after it, plus the number of inserts skipped
    as duplicates, is the number of rows before it plus the number of
    candles attempted. *)
Theorem import_counts (symbol : string) (tf : string * string) (s s' : state) :
  import_history w symbol tf s = (Ok tt, s') ->
  exists cs,
    raw_candles w symbol tf = Ok cs /\
    stmts_of (log s') = (stmts_of (log s) ++ inserts_of symbol (fst tf) cs)%list /\
    length (inserts_of symbol (fst tf) cs) = length cs /\
    (size (price_history (txn s'))
       + duplicates (inserts_of symbol (fst tf) cs) (txn s)
     = size (price_history (txn s)) + length cs)%nat.
Proof.
  intros Hrun. apply import_history_ok in Hrun as (cs & Hraw & Hall & ->).
  exists cs. split; [done|]. cbn [log txn].
  assert (length (inserts_of symbol (fst tf) cs) = length cs) as Hlen
    by (by apply omap_all_length).
  split; [|split; [done|]].
  - unfold import_events.
    rewrite !stmts_of_app, stmts_of_executed. simpl. by rewrite app_nil_r.
  - rewrite <- Hlen. apply exec_all_price_size, inserts_of_keys.
Qed.

End Runs.

(** ** The end-to-end example *)

Section Example.
Context `{H : Host}.
Variables (t1 t2 : datetime).
Variables (f100 f110 f90 f105 f50 f108 f95 f106 f40 : pyfloat).

Hypothesis upper_BTC : str_upper "BTC" = "BTC".
Hypothesis time1 : utcfromtimestamp_ms (JInt 1700000000000) = Ok t1.
Hypothesis time2 : utcfromtimestamp_ms (JInt 1700003600000) = Ok t2.
Hypothesis times_differ : t1 <> t2.
Hypothesis float100 : float_of (JStr "100") = Ok f100.
Hypothesis float110 : float_of (JStr "110") = Ok f110.
Hypothesis float90 : float_of (JStr "90") = Ok f90.
Hypothesis float105 : float_of (JStr "105") = Ok f105.
Hypothesis float50 : float_of (JStr "50") = Ok f50.
Hypothesis float108 : float_of (JStr "108") = Ok f108.
Hypothesis float95 : float_of (JStr "95") = Ok f95.
Hypothesis float106 : float_of (JStr "106") = Ok f106.
Hypothesis float40 : float_of (JStr "40") = Ok f40.

Let upsert_btc : stmt pyfloat datetime :=
  UpsertCrypto "BTCUSDT" (JStr "Bitcoin") "Spot" (JStr "img.png").
Let insert1 : stmt pyfloat datetime :=
  InsertPrice "BTCUSDT" "1h" f100 f110 f90 f105 f50 t1 t1.
Let insert2 : stmt pyfloat datetime :=
  InsertPrice "BTCUSDT" "1h" f105 f108 f95 f106 f40 t2 t2.

Hypothesis accepts_upsert : rejects upsert_btc = false.
Hypothesis accepts_insert1 : rejects insert1 = false.
Hypothesis accepts_insert2 : rejects insert2 = false.

Lemma example_symbol : binance_symbol btc = Ok "BTCUSDT".
Proof. unfold binance_symbol. simpl. by rewrite upper_BTC. Qed.

Lemma example_upsert : sent (upsert_of btc) = Ok upsert_btc.
Proof.
  unfold upsert_of. rewrite example_symbol. simpl.
  fold upsert_btc. by rewrite accepts_upsert.
Qed.

Lemma example_insert1 : sent (insert_of "BTCUSDT" "1h" candle1) = Ok insert1.
Proof.
  unfold insert_of. simpl.
  rewrite time1, float100, float110, float90, float105, float50. simpl.
  fold insert1. by rewrite accepts_insert1.
Qed.

Lemma example_insert2 : sent (insert_of "BTCUSDT" "1h" candle2) = Ok insert2.
Proof.
  unfold insert_of. simpl.
  rewrite time2, float105, float108, float95, float106, float40. simpl.
  fold insert2. by rewrite accepts_insert2.
Qed.

Lemma example_import_1h (s : state) :
  import_history example_world "BTCUSDT" ("1h", "1h") s =
  (Ok tt,
   State (symbols s) (exec insert2 (exec insert1 (txn s))) (stored s)
         (log s ++ import_events "BTCUSDT" ("1h", "1h") [candle1; candle2])).
Proof.
  apply import_history_ok. exists [candle1; candle2]. split; [reflexivity|].
  split.
  - repeat constructor; simpl; [rewrite example_insert1|rewrite example_insert2];
      by eexists.
  - f_equal. unfold inserts_of. cbn [omap list_omap fst].
    by rewrite example_insert1, example_insert2.
Qed.

Lemma example_import_other (tf : string * string) (s : state) :
  snd tf <> "1h" ->
  import_history example_world "BTCUSDT" tf s =
  (Ok tt,
   State (symbols s) (txn s) (stored s)
         (log s ++ import_events "BTCUSDT" tf [])).
Proof.
  intros Htf. apply import_history_nothing.
  unfold raw_candles, candles_of. simpl. unfold example_klines. simpl.
  destruct (String.eqb_spec (snd tf) "1h") as [|_]; [done|]. reflexivity.
Qed.

Lemma example_timeframes (s : state) :
  exists evs,
    for_ timeframes (import_history example_world "BTCUSDT") s =
    (Ok tt,
     State (symbols s) (exec insert2 (exec insert1 (txn s))) (stored s)
           (log s ++ evs)).
Proof.
  unfold timeframes. eexists.
  rewrite for_cons, example_import_other by done.
  rewrite for_cons, example_import_other by done.
  rewrite for_cons, example_import_other by done.
  rewrite for_cons, example_import_1h.
  rewrite for_cons, example_import_other by done.
  rewrite for_cons, example_import_other by done.
  rewrite for_nil. cbn [symbols txn stored log].
  rewrite <- !app_assoc. reflexivity.
Qed.

Lemma example_import_all (s : state) :
  exists evs,
    import_all example_world ["BTCUSDT"; "BTCUSDT"] s =
    (Ok tt,
     State (symbols s)
           (exec insert2 (exec insert1 (exec insert2 (exec insert1 (txn s)))))
           (stored s) (log s ++ evs)).
Proof.
  unfold import_all. rewrite for_cons.
  edestruct example_timeframes as [evs1 ->].
  rewrite for_cons.
  edestruct example_timeframes as [evs2 ->].
  rewrite for_nil. cbn [symbols txn stored log].
  eexists. rewrite <- app_assoc. reflexivity.
Qed.

(** C7: on the universe of the one coin BTC / Bitcoin / img.png and the two
    raw candles for BTCUSDT at one hour, a run on the empty store completes
    and commits one row of [cryptocurrencies], under BTCUSDT, with the name
    Bitcoin, the market type Spot, the image and [active] set, and two rows
    of [price_history], under (BTCUSDT, 1h, open time), whose prices and
    volume are what [float] makes of the strings and whose [created_at] is
    the open time, the instant [utcfromtimestamp] makes of the epoch. *)
Theorem end_to_end_example :
  exists s,
    run example_world empty_db = (Ok tt, s) /\
    cryptocurrencies (stored s) =
      {[ "BTCUSDT" := CryptoRow (JStr "Bitcoin") "Spot" (JStr "img.png") true
                                extra_default ]} /\
    price_history (stored s) =
      <[ ("BTCUSDT", "1h", t2) := PriceRow f105 f108 f95 f106 f40 t2 ]>
        {[ ("BTCUSDT", "1h", t1) := PriceRow f100 f110 f90 f105 f50 t1 ]}.
Proof.
  rewrite run_unfold, pipeline_run.
  assert (fetch_universe example_world (init empty_db) =
          (Ok (JArr [btc]),
           State (symbols_of [btc]) empty_db empty_db [Requested Markets])) as ->.
  { apply fetch_universe_ok. exists 200, [btc].
    split; [done|]. split; [done|]. split; [|done].
    repeat constructor. rewrite example_symbol. by eexists. }
  assert (reconcile (JArr [btc])
            (State (symbols_of [btc]) empty_db empty_db [Requested Markets]) =
          (Ok tt,
           State (symbols_of [btc] ++ omap upsert_key (upserts_of [btc]))
                 (exec_all (upserts_of [btc]) empty_db) empty_db
                 ([Requested Markets] ++ map Executed (upserts_of [btc])))) as ->.
  { apply reconcile_ok. exists [btc]. split; [done|]. split; [|done].
    repeat constructor. rewrite example_upsert. by eexists. }
  unfold upserts_of, symbols_of. cbn [omap list_omap symbols txn stored log init].
  rewrite example_upsert, example_symbol. cbn [ok omap list_omap upsert_key upsert_btc].
  cbn [app]. edestruct example_import_all as [evs ->].
  cbn [symbols txn stored log].
  eexists. split; [reflexivity|]. cbn [stored].
  assert (("BTCUSDT", "1h", t1) <> ("BTCUSDT", "1h", t2)) as Hne by congruence.
  unfold exec_all, empty_db, insert1, insert2. simpl.
  rewrite lookup_empty. simpl.
  rewrite lookup_insert_ne by done. rewrite lookup_empty. simpl.
  rewrite lookup_insert_ne by congruence. rewrite lookup_insert_eq. simpl.
  rewrite lookup_insert_eq. simpl. done.
Qed.

End Example.

(** * The script on the sample host *)

Section OnSampleHost.
Existing Instance sample_host.

(** C1, run: the universe of one coin makes the script request candles twelve
    times, each of the six pairs twice. *)
Lemma imports_per_run_witness :
  exists code coins cs,
    coingecko example_world = Response code (Some coins) /\
    iter coins = Ok cs /\
    klines_of (log (snd (run example_world empty_db))) =
      pairs_of (symbols_of cs ++ symbols_of cs) /\
    length (klines_of (log (snd (run example_world empty_db)))) =
      (12 * length cs)%nat.
Proof.
  apply (imports_per_run example_world empty_db
           (snd (run example_world empty_db))).
  apply outcome_eta. reflexivity.
Defined.

Example one_coin_twelve_imports :
  klines_of (log (snd (run example_world empty_db))) =
  [("BTCUSDT", "1m"); ("BTCUSDT", "5m"); ("BTCUSDT", "15m");
   ("BTCUSDT", "1h"); ("BTCUSDT", "4h"); ("BTCUSDT", "1d");
   ("BTCUSDT", "1m"); ("BTCUSDT", "5m"); ("BTCUSDT", "15m");
   ("BTCUSDT", "1h"); ("BTCUSDT", "4h"); ("BTCUSDT", "1d")].
Proof. reflexivity. Qed.

Example hundred_coins_twelve_hundred_imports :
  fst (run hundred_coin_world empty_db) = Ok tt /\
  length (klines_of (log (snd (run hundred_coin_world empty_db)))) = 1200%nat.
Proof. split; vm_compute; reflexivity. Qed.

(** C3, run: the second of three coins has a null name, which the sample
    store refuses.  The run ends with the database error; the upsert of the
    first coin is the only statement executed, the third coin is never
    written, no candle is requested and nothing is committed. *)
Lemma failed_upsert_stops_the_batch :
  fst (run nameless_world empty_db) = Raise DatabaseError /\
  stmts_of (log (snd (run nameless_world empty_db))) =
    [UpsertCrypto "BTCUSDT" (JStr "Bitcoin") "Spot" (JStr "img.png")] /\
  cryptocurrencies (txn (snd (run nameless_world empty_db))) !! "ETHUSDT" = None /\
  klines_of (log (snd (run nameless_world empty_db))) = [] /\
  stored (snd (run nameless_world empty_db)) = empty_db.
Proof. repeat split; reflexivity. Qed.

Lemma failed_upsert_aborts_run_witness :
  run nameless_world empty_db =
  (Raise DatabaseError,
   State (symbols_of [btc; nameless; eth] ++ symbols_of [btc])
         (exec_all (upserts_of [btc]) empty_db) empty_db
         ([Requested Markets] ++ map Executed (upserts_of [btc]))).
Proof.
  apply (failed_upsert_aborts_run nameless_world empty_db 200 [btc] [eth] nameless
           DatabaseError).
  - reflexivity.
  - repeat constructor; eexists; reflexivity.
  - repeat constructor; eexists; reflexivity.
  - reflexivity.
Defined.

(** C4, run: the universe provider answers 503 with a list of one coin.  The
    script does not look at the status: the run completes and commits the
    coin and its two candles. *)
Lemma error_status_still_imports :
  fst (run error_status_world empty_db) = Ok tt /\
  cryptocurrencies (stored (snd (run error_status_world empty_db))) !! "BTCUSDT" =
    Some (CryptoRow (JStr "Bitcoin") "Spot" (JStr "img.png") true tt) /\
  size (price_history (stored (snd (run error_status_world empty_db)))) = 2%nat.
Proof. repeat split; reflexivity. Qed.


(** C6, run: BTCUSDT is stored as an inactive futures market under an old
    name; the upsert renames it, replaces the image, activates it, and
    leaves the market type. *)
Lemma upsert_updates_in_place_witness :
  exists s',
    reconcile_coin btc (init listed_db) = (Ok tt, s') /\
    cryptocurrencies (txn s') =
      <["BTCUSDT" := CryptoRow (JStr "Bitcoin") "Futures" (JStr "img.png") true tt]>
        (cryptocurrencies listed_db) /\
    price_history (txn s') = price_history listed_db /\
    stored s' = listed_db.
Proof.
  apply (upsert_updates_in_place btc (init listed_db) "BTCUSDT"
           (JStr "Bitcoin") (JStr "img.png")
           (CryptoRow (H:=sample_host) (JStr "Old name") "Futures" (JStr "old.png")
                      false tt));
    reflexivity.
Defined.

(** C7, run: on the sample host the instants are the epochs and the floats
    the values of the literals. *)
Lemma end_to_end_example_witness :
  exists s,
    run example_world empty_db = (Ok tt, s) /\
    cryptocurrencies (stored s) =
      {[ "BTCUSDT" := CryptoRow (JStr "Bitcoin") "Spot" (JStr "img.png") true tt ]} /\
    price_history (stored s) =
      <[ ("BTCUSDT", "1h", 1700003600000) := PriceRow 105 108 95 106 40 1700003600000 ]>
        {[ ("BTCUSDT", "1h", 1700000000000) := PriceRow 100 110 90 105 50 1700000000000 ]}.
Proof.
  apply (end_to_end_example (H:=sample_host) 1700000000000 1700003600000 100 110 90 105 50 108 95 106 40);
    try reflexivity.
  discriminate.
Defined.

(** C8, run: two coins with the ticker btc.  Both orders complete, and the
    row of BTCUSDT carries the name of whichever coin came last. *)
Lemma same_symbol_order_matters :
  [btc (F:=Z); btc_again] ≡ₚ [btc_again; btc] /\
  fst (reconcile (JArr [btc; btc_again]) (init empty_db)) = Ok tt /\
  fst (reconcile (JArr [btc_again; btc]) (init empty_db)) = Ok tt /\
  name <$> cryptocurrencies (txn (snd (reconcile (JArr [btc; btc_again]) (init empty_db))))
             !! "BTCUSDT" = Some (JStr "Bitcoin Cash") /\
  name <$> cryptocurrencies (txn (snd (reconcile (JArr [btc_again; btc]) (init empty_db))))
             !! "BTCUSDT" = Some (JStr "Bitcoin").
Proof.
  split; [apply perm_swap|]. repeat split; reflexivity.
Qed.

Lemma reconcile_order_irrelevant_witness :
  exists s2,
    reconcile (JArr [eth; btc]) (init empty_db) = (Ok tt, s2) /\
    txn s2 = txn (snd (reconcile (JArr [btc; eth]) (init empty_db))) /\
    stored s2 = stored (snd (reconcile (JArr [btc; eth]) (init empty_db))).
Proof.
  apply (reconcile_order_irrelevant [btc; eth] [eth; btc] (init empty_db)
           (snd (reconcile (JArr [btc; eth]) (init empty_db)))).
  - apply perm_swap.
  - apply (bool_decide_unpack _). vm_compute. exact I.
  - apply outcome_eta. reflexivity.
Defined.

(** C9, run: the same pair imported twice in a row.  The first import
    attempts two candles and writes two rows, the second attempts two and
    writes none; both return the same value, the unit. *)
Lemma import_returns_no_counts :
  fst (import_history example_world "BTCUSDT" ("1h", "1h") (init empty_db)) = Ok tt /\
  size (price_history (txn (snd
    (import_history example_world "BTCUSDT" ("1h", "1h") (init empty_db))))) = 2%nat /\
  fst (import_history example_world "BTCUSDT" ("1h", "1h")
         (snd (import_history example_world "BTCUSDT" ("1h", "1h") (init empty_db))))
    = Ok tt /\
  size (price_history (txn (snd
    (import_history example_world "BTCUSDT" ("1h", "1h")
       (snd (import_history example_world "BTCUSDT" ("1h", "1h") (init empty_db)))))))
    = 2%nat.
Proof. repeat split; reflexivity. Qed.

Lemma import_counts_witness :
  exists cs,
    raw_candles example_world "BTCUSDT" ("1h", "1h") = Ok cs /\
    stmts_of (log (snd (import_history example_world "BTCUSDT" ("1h", "1h")
                          (init empty_db)))) =
      (stmts_of (log (init empty_db)) ++ inserts_of "BTCUSDT" "1h" cs)%list /\
    length (inserts_of "BTCUSDT" "1h" cs) = length cs /\
    (size (price_history (txn (snd (import_history example_world "BTCUSDT"
                                      ("1h", "1h") (init empty_db)))))
       + duplicates (inserts_of "BTCUSDT" "1h" cs) (txn (init empty_db))
     = size (price_history (txn (init empty_db))) + length cs)%nat.
Proof.
  apply (import_counts example_world "BTCUSDT" ("1h", "1h") (init empty_db)
           (snd (import_history example_world "BTCUSDT" ("1h", "1h") (init empty_db)))).
  apply outcome_eta. reflexivity.
Defined.

End OnSampleHost.

(** * More of the script *)

Section Phases.
Context `{H : Host}.
Variable w : world.

Ltac keeps_step :=
  lazymatch goal with
  | |- keeps _ (mret _) => apply keeps_ret
  | |- keeps _ (lift _) => apply keeps_lift
  | |- keeps _ (symbols_append _) => apply keeps_symbols_append
  | |- keeps _ symbols_clear => apply keeps_symbols_clear
  | |- keeps _ symbols_read => apply keeps_symbols_read
  | |- keeps _ (execute _) => apply keeps_execute
  | |- keeps _ (emit _) => apply keeps_emit
  | |- keeps _ (for_ _ _) => apply keeps_for; intros ?
  | |- keeps _ (_ ≫= _) => apply keeps_bind; [|intros ?]
  end.

Lemma keeps_for_in (P : event -> Prop) {A} (l : list A) (body : A -> M unit) :
  (forall x, x ∈ l -> keeps P (body x)) -> keeps P (for_ l body).
Proof.
  induction l as [|x l IH]; intros Hb; [apply keeps_ret|].
  apply keeps_bind.
  - apply Hb. by left.
  - intros _. apply IH. intros y Hy. apply Hb. by right.
Qed.

Lemma keeps_registry_fetch_universe : keeps registry_event (fetch_universe w).
Proof.
  unfold fetch_universe. repeat keeps_step.
  - by apply keeps_requests_get.
  - apply keeps_response_json.
  - apply keeps_collect_symbol.
Qed.

Lemma keeps_registry_reconcile (coins : json pyfloat) :
  keeps registry_event (reconcile coins).
Proof. unfold reconcile, reconcile_coin. repeat keeps_step. done. Qed.

Lemma keeps_import_import_candle (symbol : string) (tf : string * string)
    (candle : json pyfloat) :
  tf ∈ timeframes ->
  keeps import_event (import_candle symbol (fst tf) candle).
Proof.
  intros Htf. unfold import_candle. repeat keeps_step.
  split; [|done]. by apply list_elem_of_fmap_2.
Qed.

Lemma keeps_import_import_history (symbol : string) (tf : string * string) :
  tf ∈ timeframes ->
  keeps import_event (import_history w symbol tf).
Proof.
  intros Htf. unfold import_history. repeat keeps_step; try done.
  - unfold fetch_binance_candles. keeps_step.
    + apply keeps_requests_get. split; [|done]. by apply list_elem_of_fmap_2.
    + case_decide; [apply keeps_response_json|keeps_step].
  - by apply keeps_import_import_candle.
Qed.

Lemma keeps_import_import_all (syms : list string) :
  keeps import_event (import_all w syms).
Proof.
  unfold import_all. keeps_step. apply keeps_for_in.
  intros tf Htf. by apply keeps_import_import_history.
Qed.

(** ** The log of a run, phase by phase *)

Lemma pipeline_phases (s : state) :
  exists s1,
    extends registry_event s s1 /\
    extends import_event s1 (snd (pipeline w s)).
Proof.
  rewrite pipeline_run.
  pose proof (keeps_registry_fetch_universe s) as Hf.
  destruct (fetch_universe w s) as [[coins|e] s1]; simpl in Hf.
  2:{ exists s1. split; [done|apply extends_refl]. }
  pose proof (keeps_registry_reconcile coins s1) as Hr.
  destruct (reconcile coins s1) as [[[]|e] s2]; simpl in Hr.
  2:{ exists s2. split; [by eapply extends_trans|apply extends_refl]. }
  exists s2. split; [by eapply extends_trans|]. apply keeps_import_import_all.
Qed.

Lemma stmts_of_registry (evs : list event) :
  Forall registry_event evs -> Forall registry_stmt (stmts_of evs).
Proof.
  induction 1 as [|e evs He _ IH]; [constructor|].
  destruct e as [[|]| | |[]|]; simpl in *; try done; by constructor.
Qed.

Lemma stmts_of_import (evs : list event) :
  Forall import_event evs -> Forall import_stmt (stmts_of evs).
Proof.
  induction 1 as [|e evs He _ IH]; [constructor|].
  destruct e as [[|]| | |[]|]; simpl in *; try done; by constructor.
Qed.

(** X1: the log of a run is made of the events of the registry phase, then the
    events of the import phase, then, if and only if the run completes, the
    commit and the final print. *)
Theorem run_phases (d : db) :
  exists pre post,
    Forall registry_event pre /\ Forall import_event post /\
    log (snd (run w d)) =
      (pre ++ post ++
       match fst (run w d) with
       | Ok _ => [Committed; Printed "Importação concluída!"]
       | Raise _ => []
       end)%list.
Proof.
  rewrite run_unfold.
  destruct (pipeline_phases (init d)) as (s1 & Hpre & Hpost).
  destruct Hpre as (pre & Hl1 & Hp1 & _ & _).
  destruct Hpost as (post & Hl2 & Hp2 & _ & _).
  exists pre, post. split; [done|]. split; [done|].
  destruct (pipeline w (init d)) as [[[]|e] s2]; simpl in *.
  - rewrite Hl2, Hl1. simpl. by rewrite <- !app_assoc.
  - rewrite Hl2, Hl1. simpl. by rewrite app_nil_r.
Qed.

(** The store a run commits: the statements of the registry phase, then the
    statements of the import phase, on the initial store; the initial store
    itself when the run raises. *)
Lemma run_store (d : db) :
  exists pre post,
    Forall registry_stmt pre /\ Forall import_stmt post /\
    stored (snd (run w d)) =
      match fst (run w d) with
      | Ok _ => exec_all post (exec_all pre d)
      | Raise _ => d
      end.
Proof.
  rewrite run_unfold.
  destruct (pipeline_phases (init d)) as (s1 & Hpre & Hpost).
  destruct Hpre as (pre & _ & Hp1 & Hs1 & Ht1).
  destruct Hpost as (post & _ & Hp2 & Hs2 & Ht2).
  exists (stmts_of pre), (stmts_of post).
  split; [by apply stmts_of_registry|]. split; [by apply stmts_of_import|].
  destruct (pipeline w (init d)) as [[[]|e] s2]; simpl in *.
  - by rewrite Ht2, Ht1.
  - by rewrite Hs2, Hs1.
Qed.

End Phases.

Section StoreAfterRun.
Context `{H : Host}.
Variable w : world.

(** ** What each phase can change *)

Lemma exec_all_registry_prices (qs : list (stmt pyfloat datetime)) (d : db) :
  Forall registry_stmt qs -> price_history (exec_all qs d) = price_history d.
Proof.
  intros Hqs. revert d. induction Hqs as [|q qs Hq _ IH]; intros d; [done|].
  rewrite exec_all_cons, IH. by destruct q.
Qed.

Lemma exec_all_import_cryptos (qs : list (stmt pyfloat datetime)) (d : db) :
  Forall import_stmt qs -> cryptocurrencies (exec_all qs d) = cryptocurrencies d.
Proof.
  intros Hqs. revert d. induction Hqs as [|q qs Hq _ IH]; intros d; [done|].
  rewrite exec_all_cons, IH. destruct q; [done|]. apply exec_insert_cryptos.
Qed.

Lemma exec_all_price_origin (qs : list (stmt pyfloat datetime)) (d : db)
    (k : string * string * datetime) (r : price_row) :
  Forall import_stmt qs ->
  price_history (exec_all qs d) !! k = Some r ->
  price_history d !! k = Some r \/
  (snd (fst k) ∈ map fst timeframes /\ created_at r = snd k).
Proof.
  intros Hqs. revert d. induction Hqs as [|q qs Hq _ IH]; intros d Hk; [by left|].
  rewrite exec_all_cons in Hk. apply IH in Hk as [Hk|Hk]; [|by right].
  destruct q as [|sym tf o h l c v ts cr]; [done|].
  rewrite exec_insert_lookup in Hk.
  destruct (price_history d !! k) as [r'|]; [by left|].
  case_decide as Hkey; [|done]. injection Hk as <-. subst k.
  destruct Hq as [Htf ->]. by right.
Qed.

Lemma exec_all_crypto_frame (qs : list (stmt pyfloat datetime)) (d : db)
    (k : string) (r : crypto_row) :
  cryptocurrencies d !! k = Some r ->
  exists r',
    cryptocurrencies (exec_all qs d) !! k = Some r' /\
    market_type r' = market_type r /\ others r' = others r.
Proof.
  intros Hk. pose proof (exec_all_crypto_lookup qs d k) as Hl.
  destruct (last_upsert k qs) as [[nm img]|].
  - destruct Hl as (mt & oth & Hl & Hfr). destruct (Hfr r Hk) as [-> ->].
    by eexists.
  - exists r. by rewrite Hl.
Qed.

Lemma last_upsert_is_Some (qs : list (stmt pyfloat datetime)) (k : string) :
  k ∈ omap upsert_key qs -> is_Some (last_upsert k qs).
Proof.
  induction qs as [|q qs IH]; [by intros ?%elem_of_nil|].
  cbn [omap list_omap last_upsert]. intros Hk.
  destruct (last_upsert k qs) as [x|] eqn:Hlast; [by eexists|].
  destruct q as [sym nm mt img|]; simpl in Hk.
  - apply elem_of_cons in Hk as [->|Hk].
    + rewrite decide_True by done. by eexists.
    + by destruct (IH Hk).
  - by destruct (IH Hk).
Qed.

(** ** The committed store of a run that completes *)

Lemma run_ok_store (d : db) (s : state) (code : Z) (coins : json pyfloat)
    (cs : list (json pyfloat)) :
  run w d = (Ok tt, s) ->
  coingecko w = Response code (Some coins) ->
  iter coins = Ok cs ->
  Forall (fun c => is_Some (ok (sent (upsert_of c)))) cs /\
  exists post,
    Forall import_stmt post /\
    stored s = exec_all post (exec_all (upserts_of cs) d).
Proof.
  rewrite run_unfold, pipeline_run. intros Hrun Hcg Hit.
  destruct (fetch_universe w (init d)) as [[coins'|e] s1] eqn:Hf; [|done].
  apply fetch_universe_ok in Hf as (code' & cs' & Hcg' & Hit' & Hsym & ->).
  assert (coins' = coins) as -> by congruence.
  assert (cs' = cs) as -> by congruence.
  destruct (reconcile coins _) as [[[]|e] s2] eqn:Hr; [|done].
  apply reconcile_ok in Hr as (cs' & Hit'' & Hup & ->).
  assert (cs' = cs) as -> by congruence.
  split; [done|].
  match type of Hrun with context [import_all w ?l ?s0] =>
    pose proof (keeps_import_import_all w l s0) as (post & _ & Hp & _ & Ht);
    destruct (import_all w l s0) as [[[]|e] s3]; [|done]
  end.
  injection Hrun as <-. exists (stmts_of post).
  split; [by apply stmts_of_import|]. simpl in *. exact Ht.
Qed.

(** X2: a candle row found in the committed store after a run was there,
    unchanged, before the run, or it is under one of the six timeframes and
    its [created_at] is its timestamp. *)
Theorem added_candles_wellformed (d : db) (k : string * string * datetime)
    (r : price_row) :
  price_history (stored (snd (run w d))) !! k = Some r ->
  price_history d !! k = Some r \/
  (snd (fst k) ∈ map fst timeframes /\ created_at r = snd k).
Proof.
  destruct (run_store w d) as (pre & post & Hpre & Hpost & ->).
  destruct (fst (run w d)); [|by left].
  intros Hk. apply exec_all_price_origin in Hk as [Hk|Hk]; [|by right|done].
  left. by rewrite exec_all_registry_prices in Hk.
Qed.

(** X3: a run never deletes a row of [cryptocurrencies], and never changes
    the market type of a stored row or a column its upsert does not name. *)
Theorem run_keeps_registry_rows (d : db) (k : string) (r : crypto_row) :
  cryptocurrencies d !! k = Some r ->
  exists r',
    cryptocurrencies (stored (snd (run w d))) !! k = Some r' /\
    market_type r' = market_type r /\ others r' = others r.
Proof.
  intros Hk. destruct (run_store w d) as (pre & post & Hpre & Hpost & ->).
  destruct (fst (run w d)); [|by exists r].
  rewrite exec_all_import_cryptos by done. by apply exec_all_crypto_frame.
Qed.

Lemma upserts_of_registry (cs : list (json pyfloat)) :
  Forall registry_stmt (upserts_of cs).
Proof.
  unfold upserts_of. induction cs as [|c cs IH]; [constructor|].
  cbn [omap list_omap]. destruct (sent (upsert_of c)) as [q|] eqn:Hs; [|done].
  apply upsert_of_shape in Hs as (sym & nm & img & _ & _ & _ & _ & ->).
  simpl. by constructor.
Qed.

Lemma exec_all_crypto_new (qs : list (stmt pyfloat datetime)) (d : db)
    (k : string) (r : crypto_row) :
  Forall registry_stmt qs ->
  cryptocurrencies d !! k = None ->
  cryptocurrencies (exec_all qs d) !! k = Some r ->
  market_type r = "Spot" /\ others r = extra_default.
Proof.
  intros Hqs. revert d. induction Hqs as [|q qs Hq _ IH]; intros d Hnone Hk.
  - simpl in Hk. congruence.
  - rewrite exec_all_cons in Hk.
    destruct q as [sym nm mt img|]; [|done]. simpl in Hq. subst mt.
    destruct (decide (sym = k)) as [->|Hne].
    + destruct (exec_all_crypto_frame qs
        (exec (UpsertCrypto k nm "Spot" img) d) k
        (CryptoRow nm "Spot" img true extra_default)) as (r' & Hr' & Hmt & Hoth).
      { rewrite exec_upsert_lookup, decide_True by done. by rewrite Hnone. }
      rewrite Hk in Hr'. by injection Hr' as <-.
    + apply (IH (exec (UpsertCrypto sym nm "Spot" img) d)); [|done].
      by rewrite exec_upsert_lookup, decide_False.
Qed.

(** X4: after a run that completes, every symbol derived from the universe
    has a row in the committed store; the row is active, its name and image
    are those of the last coin of the universe with that symbol, and if the
    symbol was not stored before, its market type is Spot. *)
Theorem run_lists_universe (d : db) (s : state) (code : Z)
    (coins : json pyfloat) (cs : list (json pyfloat)) (sym : string) :
  run w d = (Ok tt, s) ->
  coingecko w = Response code (Some coins) ->
  iter coins = Ok cs ->
  sym ∈ symbols_of cs ->
  exists nm img r,
    last_upsert sym (upserts_of cs) = Some (nm, img) /\
    cryptocurrencies (stored s) !! sym = Some r /\
    name r = nm /\ image_url r = img /\ active r = true /\
    (cryptocurrencies d !! sym = None -> market_type r = "Spot").
Proof.
  intros Hrun Hcg Hit Hsym.
  destruct (run_ok_store d s code coins cs Hrun Hcg Hit)
    as (Hup & post & Hpost & ->).
  rewrite exec_all_import_cryptos by done.
  rewrite <- (upserts_of_keys cs Hup) in Hsym.
  pose proof (exec_all_crypto_lookup (upserts_of cs) d sym) as Hl.
  destruct (last_upsert_is_Some _ _ Hsym) as [[nm img] Hlast].
  rewrite Hlast in Hl. destruct Hl as (mt & oth & Hl & _).
  exists nm, img, (CryptoRow nm mt img true oth).
  repeat split; try done.
  intros Hnone.
  by destruct (exec_all_crypto_new (upserts_of cs) d sym _
                 (upserts_of_registry cs) Hnone Hl).
Qed.

(** X5: the script never reads the store.  Two runs in the same world on
    two different stores end the same way, with the same list of symbols and
    the same log of requests, prints, sleeps and statements. *)
Theorem run_ignores_store (d1 d2 : db) :
  fst (run w d1) = fst (run w d2) /\
  symbols (snd (run w d1)) = symbols (snd (run w d2)) /\
  log (snd (run w d1)) = log (snd (run w d2)).
Proof.
  destruct (oblivious_main w (init d1) (init d2)) as [Hr [Hs Hl]]; [by split|].
  done.
Qed.

Lemma keeps_markets_fetch_universe :
  keeps (fun e => e = Requested Markets) (fetch_universe w).
Proof.
  unfold fetch_universe.
  apply keeps_bind; [by apply keeps_requests_get|intros r].
  apply keeps_bind; [apply keeps_response_json|intros coins].
  apply keeps_bind; [apply keeps_symbols_clear|intros _].
  apply keeps_bind; [apply keeps_lift|intros cs].
  apply keeps_bind; [|intros _; apply keeps_ret].
  apply keeps_for. intros c. apply keeps_collect_symbol.
Qed.

(** X6: either the universe response is a body that decodes to a sequence of
    coins from each of which a symbol can be derived, or the run raises
    before the reconcile loop: it has logged nothing but the request to the
    ranking provider, sent no statement, and committed nothing. *)
Theorem malformed_universe_writes_nothing (d : db) :
  (exists code coins cs,
     coingecko w = Response code (Some coins) /\
     iter coins = Ok cs /\
     Forall (fun c => is_Some (ok (binance_symbol c))) cs) \/
  (exists e s,
     run w d = (Raise e, s) /\
     Forall (fun e => e = Requested Markets) (log s) /\
     txn s = d /\ stored s = d).
Proof.
  destruct (fetch_universe w (init d)) as [[coins|e] s1] eqn:Hf.
  - left. apply fetch_universe_ok in Hf as (code & cs & Hcg & Hit & Hsym & _).
    by exists code, coins, cs.
  - right. exists e, s1. rewrite run_unfold, pipeline_run, Hf.
    split; [done|].
    destruct (keeps_markets_fetch_universe (init d)) as (evs & Hl & Hp & Hs & Ht).
    rewrite Hf in Hl, Hs, Ht. simpl in *. rewrite Hl. split; [done|].
    split; [|done]. rewrite Ht.
    assert (stmts_of evs = []) as ->; [|done].
    clear -Hp. induction Hp as [|x evs -> _ IH]; [done|]. exact IH.
Qed.

(** X7: a universe body that is a JSON object with at least one key (the
    shape of the ranking provider's error bodies) makes the run raise a
    TypeError at the first coin, whatever the status code: the loop iterates
    the keys of the dict and subscripts a string with 'symbol'. *)
Theorem object_body_raises_type_error (d : db) (code : Z) (k : string)
    (v : json pyfloat) (kvs : list (string * json pyfloat)) :
  coingecko w = Response code (Some (JObj ((k, v) :: kvs))) ->
  run w d = (Raise TypeError, State [] d d [Requested Markets]).
Proof.
  intros Hcg. rewrite run_unfold, pipeline_run.
  unfold fetch_universe. rewrite bind_run, requests_get_run. cbn [answer].
  rewrite Hcg. reflexivity.
Qed.

End StoreAfterRun.

Section Rounds.
Context `{H : Host}.
Variable w : world.

(** A loop that completes keeps what each completed round keeps. *)
Lemma for_invariant {A} (I : state -> Prop) (body : A -> M unit) :
  (forall x s s', I s -> body x s = (Ok tt, s') -> I s') ->
  forall l s s', I s -> for_ l body s = (Ok tt, s') -> I s'.
Proof.
  intros Hb. induction l as [|x l IH]; intros s s' Hs Hrun.
  - rewrite for_nil in Hrun. by injection Hrun as <-.
  - rewrite for_cons in Hrun.
    destruct (body x s) as [[[]|e] s1] eqn:Hx; [|done].
    eapply IH; [|exact Hrun]. by eapply Hb.
Qed.

(** ** A round of the reconcile loop on a new symbol *)

(** X8: when the symbol of a coin is not in [cryptocurrencies], the round of
    the reconcile loop for that coin inserts a row with the coin's name and
    image, the market type Spot, [active] set and the defaults of the columns
    the statement does not name, and appends the symbol to [symbols]; the
    other rows, [price_history] and the committed store are unchanged. *)
Theorem upsert_inserts_new_row (coin : json pyfloat) (s : state)
    (sym : string) (nm img : json pyfloat) :
  binance_symbol coin = Ok sym ->
  getitem coin "name" = Ok nm ->
  dict_get coin "image" (JStr "") = Ok img ->
  rejects (UpsertCrypto sym nm "Spot" img) = false ->
  cryptocurrencies (txn s) !! sym = None ->
  exists s',
    reconcile_coin coin s = (Ok tt, s') /\
    cryptocurrencies (txn s') =
      <[sym := CryptoRow nm "Spot" img true extra_default]>
        (cryptocurrencies (txn s)) /\
    price_history (txn s') = price_history (txn s) /\
    stored s' = stored s /\
    symbols s' = (symbols s ++ [sym])%list.
Proof.
  intros Hsym Hnm Himg Hrej Hrow.
  rewrite reconcile_coin_run. unfold upsert_of, sent.
  rewrite Hsym, Hnm, Himg, Hrej. eexists. split; [reflexivity|].
  cbn [reconciled txn stored symbols exec]. by rewrite Hrow.
Qed.

Lemma last_upsert_None (qs : list (stmt pyfloat datetime)) (k : string) :
  k ∉ omap upsert_key qs -> last_upsert k qs = None.
Proof.
  induction qs as [|q qs IH]; [done|].
  cbn [omap list_omap last_upsert]. intros Hk.
  destruct q as [sym nm mt img|]; simpl in Hk.
  - apply not_elem_of_cons in Hk as [Hne Hk]. rewrite (IH Hk).
    by rewrite decide_False.
  - by rewrite (IH Hk).
Qed.

(** X9: a reconcile loop that completes changes only the rows of the
    symbols of its batch: every other row of [cryptocurrencies] and the
    whole of [price_history] are as before. *)
Theorem reconcile_touches_only_batch_symbols (cs : list (json pyfloat))
    (s s' : state) (k : string) :
  reconcile (JArr cs) s = (Ok tt, s') ->
  k ∉ symbols_of cs ->
  cryptocurrencies (txn s') !! k = cryptocurrencies (txn s) !! k /\
  price_history (txn s') = price_history (txn s).
Proof.
  intros Hrun Hk. apply reconcile_ok in Hrun as (cs' & [= <-] & Hall & ->).
  cbn [txn]. rewrite <- (upserts_of_keys cs Hall) in Hk.
  pose proof (exec_all_crypto_lookup (upserts_of cs) (txn s) k) as Hl.
  rewrite (last_upsert_None _ _ Hk) in Hl. split; [done|].
  apply exec_all_registry_prices, upserts_of_registry.
Qed.

(** ** A round of the candle loop *)

Lemma insert_of_needs_six (symbol tf_name : string) (l : list (json pyfloat))
    (q : stmt pyfloat datetime) :
  insert_of symbol tf_name (JArr l) = Ok q -> (6 <= length l)%nat.
Proof.
  unfold insert_of, getindex.
  destruct l as [|c0 [|c1 [|c2 [|c3 [|c4 [|c5 l]]]]]]; simpl;
    repeat match goal with
           | |- context [match float_of ?a with Ok _ => _ | Raise _ => _ end] =>
               destruct (float_of a)
           | |- context [match utcfromtimestamp_ms ?a with Ok _ => _ | Raise _ => _ end] =>
               destruct (utcfromtimestamp_ms a)
           end; try done.
  intros _. lia.
Qed.

(** X10: a round of the candle loop is all or nothing.  It converts the six
    fields first and sends the insert last, so either it completes, having
    executed exactly one insert under (symbol, timeframe, open time) with
    [created_at] equal to the open time, or it raises and leaves the state
    exactly as it was. *)
Theorem candle_round_is_atomic (symbol tf_name : string) (candle : json pyfloat)
    (s : state) :
  (exists o h l c v t,
     import_candle symbol tf_name candle s =
     (Ok tt, inserted (InsertPrice symbol tf_name o h l c v t t) s)) \/
  (exists e, import_candle symbol tf_name candle s = (Raise e, s)).
Proof.
  rewrite import_candle_run.
  destruct (sent (insert_of symbol tf_name candle)) as [q|e] eqn:Hq.
  - left. apply insert_of_shape in Hq as (o & h & l & c & v & t & ->).
    by exists o, h, l, c, v, t.
  - right. by exists e.
Qed.

(** X11: a raw candle with fewer than six fields is never inserted: the
    round raises and the state is as before. *)
Theorem short_candle_is_not_inserted (symbol tf_name : string)
    (l : list (json pyfloat)) (s : state) :
  (length l < 6)%nat ->
  exists e, import_candle symbol tf_name (JArr l) s = (Raise e, s).
Proof.
  intros Hlen. rewrite import_candle_run. unfold sent.
  destruct (insert_of symbol tf_name (JArr l)) as [q|e] eqn:Hq.
  - apply insert_of_needs_six in Hq. lia.
  - by exists e.
Qed.

(** ** The pause after each request *)

Lemma beats_of_app (evs1 evs2 : list event) :
  beats_of (evs1 ++ evs2) = (beats_of evs1 ++ beats_of evs2)%list.
Proof. apply omap_app. Qed.

Lemma paced_app (ps1 ps2 : list (string * string)) :
  paced (ps1 ++ ps2) = (paced ps1 ++ paced ps2)%list.
Proof. unfold paced. by rewrite map_app, concat_app. Qed.

Lemma offbeat_silent (evs : list event) :
  Forall offbeat evs -> beats_of evs = [] /\ klines_of evs = [].
Proof.
  induction 1 as [|e evs He _ [IH1 IH2]]; [done|].
  by destruct e as [[|]| | | |].
Qed.

Lemma registry_offbeat (e : event) : registry_event e -> offbeat e.
Proof. by destruct e as [[|]| | |[]|]. Qed.

Lemma keeps_offbeat_import_candle (symbol tf_name : string) (candle : json pyfloat) :
  keeps offbeat (import_candle symbol tf_name candle).
Proof.
  unfold import_candle.
  repeat (apply keeps_bind; [apply keeps_lift|intros ?]).
  by apply keeps_execute.
Qed.

(** The import of one pair, whatever its outcome: one request, and the pause
    after it if and only if the import completes. *)
Lemma import_history_beats (symbol : string) (tf : string * string) (s : state) :
  exists evs,
    log (snd (import_history w symbol tf s)) = (log s ++ evs)%list /\
    klines_of evs = [(symbol, snd tf)] /\
    beats_of evs =
      Call (symbol, snd tf) ::
      match fst (import_history w symbol tf s) with
      | Ok _ => [Pause 200]
      | Raise _ => []
      end.
Proof.
  destruct (import_history w symbol tf s) as [r s'] eqn:Hrun.
  cbn [fst snd]. revert Hrun.
  unfold import_history. rewrite bind_run. cbn [emit].
  rewrite bind_run, fetch_binance_candles_run. cbn [symbols txn stored log].
  destruct (candles_of w symbol (snd tf) 200) as [v|e].
  2:{ intros [= <- <-]. eexists. cbn [log]. rewrite <- app_assoc.
      split; [reflexivity|]. by split. }
  rewrite bind_run. unfold lift. destruct (iter v) as [cs|e].
  2:{ intros [= <- <-]. eexists. cbn [log]. rewrite <- app_assoc.
      split; [reflexivity|]. by split. }
  rewrite bind_run.
  match goal with |- context [for_ cs ?body ?s2] =>
    assert (keeps offbeat (for_ cs body)) as Hk
      by (apply keeps_for; intros c; apply keeps_offbeat_import_candle);
    destruct (Hk s2) as (evs & Hl & Hoff & _);
    destruct (for_ cs body s2) as [[[]|e] s3]
  end; cbn [fst snd log emit] in *;
    apply offbeat_silent in Hoff as [Hb Hq]; intros [= <- <-]; cbn [log];
    rewrite Hl.
  - exists ([Printed ("Importando candles reais para " ++ symbol ++ " - " ++ fst tf ++ "...");
             Requested (Klines symbol (snd tf) 200)] ++ evs ++ [Slept 200])%list.
    split; [by rewrite <- !app_assoc|].
    rewrite !klines_of_app, !beats_of_app, Hb, Hq. by split.
  - exists ([Printed ("Importando candles reais para " ++ symbol ++ " - " ++ fst tf ++ "...");
             Requested (Klines symbol (snd tf) 200)] ++ evs)%list.
    split; [by rewrite <- !app_assoc|].
    rewrite !klines_of_app, !beats_of_app, Hb, Hq. by split.
Qed.

(** The import loop, whatever its outcome: every pair it reaches is requested
    once, and every request but the one of a pair that raises is followed by
    its pause. *)
Lemma import_loop_beats (ps : list (string * (string * string))) (s : state) :
  exists evs served last,
    log (snd (for_ ps (fun p => import_history w (fst p) (snd p)) s)) =
      (log s ++ evs)%list /\
    klines_of evs = (served ++ last)%list /\
    beats_of evs = (paced served ++ map Call last)%list /\
    (last = [] \/
     exists p e,
       last = [p] /\
       fst (for_ ps (fun p => import_history w (fst p) (snd p)) s) = Raise e).
Proof.
  revert s. induction ps as [|p ps IH]; intros s.
  - exists [], [], []. rewrite for_nil. cbn [fst snd]. rewrite app_nil_r.
    repeat split; by left.
  - rewrite for_cons.
    destruct (import_history_beats (fst p) (snd p) s) as (evs1 & Hl1 & Hq1 & Hb1).
    destruct (import_history w (fst p) (snd p) s) as [[[]|e] s1]; cbn [fst snd] in *.
    + destruct (IH s1) as (evs2 & served & last & Hl2 & Hq2 & Hb2 & Hlast).
      exists (evs1 ++ evs2)%list, ((fst p, snd (snd p)) :: served), last.
      split; [by rewrite Hl2, Hl1, <- app_assoc|].
      split; [by rewrite klines_of_app, Hq1, Hq2|].
      split; [by rewrite beats_of_app, Hb1, Hb2|done].
    + exists evs1, [], [(fst p, snd (snd p))].
      split; [done|]. split; [done|]. split; [done|].
      right. by exists (fst p, snd (snd p)), e.
Qed.

Lemma run_beats (d : db) :
  exists served last,
    klines_of (log (snd (run w d))) = (served ++ last)%list /\
    beats_of (log (snd (run w d))) = (paced served ++ map Call last)%list /\
    (last = [] \/ exists p e, last = [p] /\ fst (run w d) = Raise e).
Proof.
  rewrite run_unfold, pipeline_run.
  destruct (keeps_registry_fetch_universe w (init d)) as (evs1 & Hl1 & Hr1 & _).
  eapply Forall_impl in Hr1; [|apply registry_offbeat].
  apply offbeat_silent in Hr1 as [Hb1 Hq1].
  destruct (fetch_universe w (init d)) as [[coins|e] s1]; cbn [fst snd log init] in *.
  2:{ exists [], []. rewrite Hl1. simpl. rewrite Hb1, Hq1. repeat split. by left. }
  destruct (keeps_registry_reconcile coins s1) as (evs2 & Hl2 & Hr2 & _).
  eapply Forall_impl in Hr2; [|apply registry_offbeat].
  apply offbeat_silent in Hr2 as [Hb2 Hq2].
  destruct (reconcile coins s1) as [[[]|e] s2]; cbn [fst snd log] in *.
  2:{ exists [], []. rewrite Hl2, Hl1. simpl.
      rewrite klines_of_app, beats_of_app, Hb1, Hq1, Hb2, Hq2.
      repeat split. by left. }
  rewrite import_all_cross.
  destruct (import_loop_beats (cross (symbols s2)) s2)
    as (evs3 & served & last & Hl3 & Hq3 & Hb3 & Hlast).
  exists served, last.
  destruct (for_ (cross (symbols s2)) _ s2) as [[[]|e] s3]; cbn [fst snd log] in *.
  - destruct Hlast as [->|(p & e & _ & He)]; [|done].
    rewrite Hl3, Hl2, Hl1. simpl.
    rewrite !klines_of_app, !beats_of_app, Hb1, Hq1, Hb2, Hq2, Hb3, Hq3.
    simpl. rewrite !app_nil_r. repeat split. by left.
  - rewrite Hl3, Hl2, Hl1. simpl.
    rewrite !klines_of_app, !beats_of_app, Hb1, Hq1, Hb2, Hq2, Hb3, Hq3.
    by repeat split.
Qed.

(** X12: in the log of a run, candle requests and sleeps alternate.  Every
    candle request is directly followed, among the requests and sleeps, by
    one sleep of 200 ms, before the next request; the only request without
    its sleep is the last one of a run that raises.  In a run that completes
    the requests and sleeps of the log are, in order, each request of the
    log followed by a sleep of 200 ms. *)
Theorem pause_follows_each_request (d : db) :
  (exists served last,
     klines_of (log (snd (run w d))) = (served ++ last)%list /\
     beats_of (log (snd (run w d))) = (paced served ++ map Call last)%list /\
     (last = [] \/ exists p e, last = [p] /\ fst (run w d) = Raise e)) /\
  (forall s,
     run w d = (Ok tt, s) ->
     beats_of (log s) = paced (klines_of (log s))).
Proof.
  split; [apply run_beats|].
  intros s Hrun.
  destruct (run_beats d) as (served & last & Hq & Hb & Hlast).
  rewrite Hrun in *. cbn [fst snd] in *.
  destruct Hlast as [->|(p & e & _ & He)]; [|done].
  rewrite Hq, Hb. simpl. by rewrite !app_nil_r.
Qed.

(** ** Doing it again *)

(** X17: a reconcile loop that completes can be run again on the state it
    left: it completes again and leaves the tables as they were after the
    first time. *)
Theorem reconcile_is_idempotent (coins : json pyfloat) (s s1 : state) :
  reconcile coins s = (Ok tt, s1) ->
  exists s2,
    reconcile coins s1 = (Ok tt, s2) /\
    txn s2 = txn s1 /\ stored s2 = stored s1.
Proof.
  intros Hrun. apply reconcile_ok in Hrun as (cs & Hit & Hall & ->).
  eexists. split.
  - apply reconcile_ok. exists cs. split; [done|]. split; [done|reflexivity].
  - cbn [txn stored]. split; [|done]. apply exec_all_idempotent.
Qed.

(** X18: importing a pair a second time, with the same answer of the
    exchange, writes nothing: every insert finds its key and is skipped.
    This is why the doubled list of symbols costs requests but no rows. *)
Theorem second_import_writes_nothing (symbol : string) (tf : string * string)
    (s s1 : state) :
  import_history w symbol tf s = (Ok tt, s1) ->
  exists s2,
    import_history w symbol tf s1 = (Ok tt, s2) /\
    txn s2 = txn s1 /\ stored s2 = stored s1.
Proof.
  intros Hrun. apply import_history_ok in Hrun as (cs & Hraw & Hall & ->).
  eexists. split.
  - apply import_history_ok. exists cs. split; [done|]. split; [done|reflexivity].
  - cbn [txn stored]. split; [|done]. apply exec_all_idempotent.
Qed.

(** ** Each phase writes its own table *)

(** X13: whatever their outcome, the universe fetch and the reconcile loop
    leave [price_history] as it was, and the import loop leaves
    [cryptocurrencies] as it was. *)
Theorem phases_write_their_own_table (coins : json pyfloat)
    (syms : list string) (s : state) :
  price_history (txn (snd (fetch_universe w s))) = price_history (txn s) /\
  price_history (txn (snd (reconcile coins s))) = price_history (txn s) /\
  cryptocurrencies (txn (snd (import_all w syms s))) = cryptocurrencies (txn s).
Proof.
  split; [|split].
  - destruct (keeps_registry_fetch_universe w s) as (evs & _ & Hp & _ & ->).
    by apply exec_all_registry_prices, stmts_of_registry.
  - destruct (keeps_registry_reconcile coins s) as (evs & _ & Hp & _ & ->).
    by apply exec_all_registry_prices, stmts_of_registry.
  - destruct (keeps_import_import_all w syms s) as (evs & _ & Hp & _ & ->).
    by apply exec_all_import_cryptos, stmts_of_import.
Qed.

End Rounds.

(** * The import-path rewrite *)

Section UpdateImports.

(** ** Strings *)

Lemma starts_with_app (p s : string) :
  starts_with p s = true -> exists t, s = p ++ t.
Proof.
  revert s. induction p as [|a p IH]; intros s Hs.
  - by exists s.
  - destruct s as [|b s]; [done|]. simpl in Hs.
    apply andb_true_iff in Hs as [Hab Hs]. apply Ascii.eqb_eq in Hab as ->.
    destruct (IH s Hs) as [t ->]. by exists t.
Qed.

Lemma string_length_app (s1 s2 : string) :
  String.length (s1 ++ s2) = (String.length s1 + String.length s2)%nat.
Proof. induction s1 as [|c s1 IH]; [done|]. simpl. by rewrite IH. Qed.

Lemma replace_from_same (old : string) (n : nat) :
  old <> EmptyString ->
  forall s pre,
    (String.length s <= n)%nat ->
    replace_from old old (String.length pre) (pre ++ s) = s.
Proof.
  intros Hold. induction n as [|n IHn]; intros s pre Hlen.
  - destruct s; [|simpl in Hlen; lia].
    induction pre as [|c pre IHpre]; [done|]. exact IHpre.
  - induction pre as [|c pre IHpre]; [|exact IHpre].
    destruct s as [|c s]; [done|]. simpl in Hlen.
    change (replace_from old old 0 (String c s) = String c s).
    cbn [replace_from].
    destruct (starts_with old (String c s)) eqn:Hst.
    + destruct (starts_with_app _ _ Hst) as [t Ht].
      destruct old as [|a old']; [done|]. simpl in Ht. injection Ht as <- ->.
      simpl String.length.
      replace (S (String.length old') - 1)%nat with (String.length old') by lia.
      rewrite (IHn t old'); [done|].
      rewrite string_length_app in Hlen. lia.
    + f_equal. apply (IHn s EmptyString). lia.
Qed.

Lemma intersperse_empty (s : string) : intersperse EmptyString s = s.
Proof. induction s as [|c s IH]; [done|]. simpl. by rewrite IH. Qed.

(** Replacing a string by itself changes nothing. *)
Lemma py_replace_same (old s : string) : py_replace old old s = s.
Proof.
  destruct old as [|a old']; [apply intersperse_empty|].
  unfold py_replace.
  by apply (replace_from_same (String a old') (String.length s) ltac:(done) s
              EmptyString).
Qed.

(** ** Line endings *)

Lemma high_byte_is_no_line_ending (c : ascii) (lo hi : N) :
  (128 <= lo)%N -> between lo hi (N_of_ascii c) = true ->
  Ascii.eqb c CR = false /\ Ascii.eqb c LF = false.
Proof.
  intros Hlo Hc. unfold between in Hc. apply andb_true_iff in Hc as [Hc _].
  apply N.leb_le in Hc.
  split; apply Ascii.eqb_neq; intros ->.
  - change (N_of_ascii CR) with 13%N in Hc. lia.
  - change (N_of_ascii LF) with 10%N in Hc. lia.
Qed.

Lemma read_newlines_no_cr (s : string) (b : bool) :
  has_byte CR (read_newlines b s) = false.
Proof.
  revert b. induction s as [|c s IH]; intros b; [done|]. simpl.
  destruct (Ascii.eqb c CR) eqn:Hc; [simpl; apply IH|].
  destruct (Ascii.eqb c LF && b); [apply IH|].
  simpl. by rewrite Hc, IH.
Qed.

Lemma read_newlines_id (s : string) :
  has_byte CR s = false -> read_newlines false s = s.
Proof.
  induction s as [|c s IH]; [done|]. simpl. intros Hs.
  apply orb_false_iff in Hs as [-> Hs]. rewrite andb_false_r. by rewrite IH.
Qed.

Lemma write_newlines_posix (s : string) : write_newlines Posix s = s.
Proof.
  induction s as [|c s IH]; [done|]. simpl.
  destruct (Ascii.eqb c LF) eqn:Hc; [|by rewrite IH].
  apply Ascii.eqb_eq in Hc as ->. simpl. by rewrite IH.
Qed.

(** Reading what was written gives the text back, on either platform. *)
Lemma read_write_newlines (os : platform) (s : string) :
  has_byte CR s = false ->
  read_newlines false (write_newlines os s) = s.
Proof.
  induction s as [|c s IH]; [done|]. simpl. intros Hs.
  apply orb_false_iff in Hs as [Hc Hs].
  destruct (Ascii.eqb c LF) eqn:Hl.
  - apply Ascii.eqb_eq in Hl as ->.
    destruct os; simpl; change (String.append EmptyString ?t) with t;
      by rewrite IH.
  - simpl. rewrite Hc, Hl. simpl. by rewrite IH.
Qed.

Example universal_newlines_sample :
  universal_newlines
    ("a" ++ String CR (String LF "b") ++ String CR "c" ++ String LF "" ++
     String CR (String CR (String LF ""))) =
  "a" ++ String LF "b" ++ String LF "c" ++ String LF "" ++
  String LF (String LF "").
Proof. reflexivity. Qed.

Example write_newlines_sample :
  write_newlines Windows ("a" ++ String LF "b" ++ String LF "") =
  "a" ++ String CR (String LF "b") ++ String CR (String LF "") /\
  write_newlines Posix ("a" ++ String LF "b" ++ String LF "") =
  "a" ++ String LF "b" ++ String LF "".
Proof. split; reflexivity. Qed.

(** ** Decoding *)

(** The decoder on a few byte sequences: ASCII, U+00E9, U+20AC and U+1F600
    are accepted; a stray continuation byte, the overlong forms C0 80 and
    E0 80 80, the surrogate ED A0 80, F4 90 80 80 above U+10FFFF, the byte
    FF and a sequence cut short are refused. *)
Example utf8_valid_samples :
  utf8_valid "package main" = true /\
  utf8_valid (String "195" (String "169" "")) = true /\
  utf8_valid (String "226" (String "130" (String "172" ""))) = true /\
  utf8_valid (String "240" (String "159" (String "152" (String "128" "")))) = true /\
  utf8_valid (String "128" "") = false /\
  utf8_valid (String "192" (String "128" "")) = false /\
  utf8_valid (String "224" (String "128" (String "128" ""))) = false /\
  utf8_valid (String "237" (String "160" (String "128" ""))) = false /\
  utf8_valid (String "244" (String "144" (String "128" (String "128" "")))) = false /\
  utf8_valid (String "255" "") = false /\
  utf8_valid (String "226" (String "130" "")) = false.
Proof. repeat split; reflexivity. Qed.

Lemma utf8_run_start (lo hi lo' hi' : N) (s : string) :
  utf8_run 0 lo hi s = utf8_run 0 lo' hi' s.
Proof. by destruct s. Qed.

Lemma utf8_run_read (s : string) :
  forall need lo hi b,
    (128 <= lo)%N ->
    utf8_run need lo hi s = true ->
    utf8_run need lo hi (read_newlines b s) = true.
Proof.
  induction s as [|c s IH]; intros need lo hi b Hlo Hs; [done|].
  destruct need as [|k].
  - cbn [read_newlines].
    destruct (Ascii.eqb c CR) eqn:Hcr.
    { apply Ascii.eqb_eq in Hcr as ->. apply (IH 0%nat 128%N 191%N); [done|exact Hs]. }
    destruct (Ascii.eqb c LF && b) eqn:Hlf.
    { apply andb_true_iff in Hlf as [Hlf _]. apply Ascii.eqb_eq in Hlf as ->.
      rewrite (utf8_run_start lo hi 128 191). apply IH; [done|exact Hs]. }
    cbn [utf8_run] in *.
    repeat match goal with
           | |- context [if ?x then _ else _] => destruct x
           end; try done; by apply IH.
  - cbn [utf8_run] in Hs. apply andb_true_iff in Hs as [Hc Hs].
    destruct (high_byte_is_no_line_ending c lo hi Hlo Hc) as [Hcr Hlf].
    cbn [read_newlines]. rewrite Hcr, Hlf. cbn [andb utf8_run].
    rewrite Hc. by apply IH.
Qed.

Lemma utf8_run_write (os : platform) (s : string) :
  forall need lo hi,
    (128 <= lo)%N ->
    utf8_run need lo hi s = true ->
    utf8_run need lo hi (write_newlines os s) = true.
Proof.
  induction s as [|c s IH]; intros need lo hi Hlo Hs; [done|].
  destruct need as [|k].
  - cbn [write_newlines].
    destruct (Ascii.eqb c LF) eqn:Hlf.
    { apply Ascii.eqb_eq in Hlf as ->.
      destruct os; apply (IH 0%nat 128%N 191%N); done. }
    cbn [utf8_run] in *.
    repeat match goal with
           | |- context [if ?x then _ else _] => destruct x
           end; try done; by apply IH.
  - cbn [utf8_run] in Hs. apply andb_true_iff in Hs as [Hc Hs].
    destruct (high_byte_is_no_line_ending c lo hi Hlo Hc) as [Hcr Hlf].
    cbn [write_newlines]. rewrite Hlf. cbn [utf8_run].
    rewrite Hc. by apply IH.
Qed.

(** ** Files and directories *)

(** A file the script rewrites reads as before. *)
Lemma read_text_written (os : platform) (f f' : source_file) (content : string) :
  read_text f = Some content ->
  write_text os f content = Some f' ->
  read_text f' = Some content /\
  bytes f' = write_newlines os (universal_newlines (bytes f)) /\
  readable f' = readable f /\ writable f' = writable f.
Proof.
  unfold read_text, write_text. intros Hr Hw.
  destruct (readable f && utf8_valid (bytes f)) eqn:Hok; [|done].
  injection Hr as <-. destruct (writable f) eqn:Hwr; [|done].
  injection Hw as <-. cbn [bytes readable writable].
  apply andb_true_iff in Hok as [-> Hv]. cbn [andb].
  unfold utf8_valid, universal_newlines in *.
  rewrite utf8_run_write by (try apply utf8_run_read; done).
  rewrite read_write_newlines by apply read_newlines_no_cr.
  done.
Qed.

Lemma same_text_refl (os : platform) (f : source_file) : same_text os f f.
Proof. unfold same_text. repeat split. by left. Qed.

Lemma update_file_same_text (os : platform) (root : list string) (name : string)
    (f : source_file) :
  same_text os f (fst (update_file os root name f)).
Proof.
  unfold update_file. destruct (ends_with ".go" name); [|apply same_text_refl].
  destruct (read_text f) as [content|] eqn:Hr; [|apply same_text_refl].
  destruct (contains old_module content); [|apply same_text_refl].
  change new_module with old_module. rewrite (py_replace_same old_module content).
  destruct (write_text os f content) as [f'|] eqn:Hw; [|apply same_text_refl].
  cbn [fst].
  destruct (read_text_written os f f' content Hr Hw) as (Hr' & Hb & Hrd & Hwr).
  unfold same_text. rewrite Hr. repeat split; try done. by right.
Qed.

Lemma update_files_same_text (os : platform) (root : list string)
    (files : list (string * source_file)) :
  Forall2 (fun x x' => fst x = fst x' /\ same_text os (snd x) (snd x'))
    files (fst (update_files os root files)).
Proof.
  induction files as [|[name f] files IH]; [constructor|].
  simpl. constructor; [|done]. split; [done|]. apply update_file_same_text.
Qed.

(** Induction on a tree, with the property at hand for every
    sub-directory. *)
Lemma tree_induction (P : tree -> Prop) :
  (forall dirs files, Forall (fun d => P (snd d)) dirs -> P (Dir dirs files)) ->
  forall t, P t.
Proof.
  intros Hdir.
  exact (fix go (t : tree) : P t :=
    match t with
    | Dir dirs files =>
        Hdir dirs files
          ((fix all (ds : list (string * tree)) : Forall (fun d => P (snd d)) ds :=
              match ds with
              | [] => List.Forall_nil _
              | d :: ds' => List.Forall_cons _ d ds' (go (snd d)) (all ds')
              end) dirs)
    end).
Qed.

Lemma same_tree_refl (R : source_file -> source_file -> Prop) (t : tree) :
  (forall f, R f f) -> same_tree R t t.
Proof.
  intros HR. induction t as [dirs files IH] using tree_induction.
  constructor.
  - induction IH as [|d dirs Hd _ IHd]; by constructor.
  - induction files as [|x files IHf]; by constructor.
Qed.

Lemma walk_dirs_same_text (os : platform) (root : list string)
    (dirs : list (string * tree)) :
  Forall (fun d => forall root',
            same_tree (same_text os) (snd d) (fst (walk os root' (snd d)))) dirs ->
  forall removed,
    Forall2 (fun d d' => fst d = fst d' /\ same_tree (same_text os) (snd d) (snd d'))
      dirs (fst (walk_dirs (walk os) root removed dirs)).
Proof.
  induction 1 as [|[name sub] dirs Hsub _ IH]; intros removed; [constructor|].
  simpl in *. destruct (negb removed && String.eqb name "vendor"); simpl.
  - constructor; [|apply IH]. split; [done|].
    apply same_tree_refl, same_text_refl.
  - constructor; [|apply IH]. split; [done|]. apply Hsub.
Qed.

Lemma walk_same_text (os : platform) (t : tree) :
  forall root, same_tree (same_text os) t (fst (walk os root t)).
Proof.
  induction t as [dirs files IH] using tree_induction. intros root.
  simpl. constructor.
  - by apply walk_dirs_same_text.
  - apply update_files_same_text.
Qed.

(** Files without a carriage return are written as they were read, on
    POSIX. *)
Lemma update_file_unix (root : list string) (name : string) (f : source_file) :
  has_byte CR (bytes f) = false ->
  fst (update_file Posix root name f) = f.
Proof.
  intros Hcr. unfold update_file. destruct (ends_with ".go" name); [|done].
  destruct (read_text f) as [content|] eqn:Hr; [|done].
  destruct (contains old_module content); [|done].
  change new_module with old_module. rewrite (py_replace_same old_module content).
  destruct (write_text Posix f content) as [f'|] eqn:Hw; [|done].
  cbn [fst].
  destruct (read_text_written Posix f f' content Hr Hw) as (_ & Hb & Hrd & Hwr).
  unfold universal_newlines in Hb.
  rewrite write_newlines_posix, read_newlines_id in Hb by done.
  destruct f, f'. simpl in *. congruence.
Qed.

Lemma update_files_unix (root : list string) (files : list (string * source_file)) :
  forallb (fun x => negb (has_byte CR (bytes (snd x)))) files = true ->
  fst (update_files Posix root files) = files.
Proof.
  induction files as [|[name f] files IH]; [done|].
  simpl. intros [Hf Hfs]%andb_true_iff. apply negb_true_iff in Hf.
  by rewrite update_file_unix, IH.
Qed.

Lemma walk_dirs_unix (test : source_file -> bool) (root : list string)
    (dirs : list (string * tree)) :
  Forall (fun d => every_file test (snd d) = true ->
                   forall root', fst (walk Posix root' (snd d)) = snd d) dirs ->
  forallb (fun d => every_file test (snd d)) dirs = true ->
  forall removed, fst (walk_dirs (walk Posix) root removed dirs) = dirs.
Proof.
  induction 1 as [|[name sub] dirs Hsub _ IH]; intros Hall removed; [done|].
  simpl in *. apply andb_true_iff in Hall as [Hd Hds].
  destruct (negb removed && String.eqb name "vendor"); simpl.
  - by rewrite IH.
  - by rewrite Hsub, IH.
Qed.

Lemma walk_unix (t : tree) :
  every_file (fun f => negb (has_byte CR (bytes f))) t = true ->
  forall root, fst (walk Posix root t) = t.
Proof.
  induction t as [dirs files IH] using tree_induction. intros Hall root.
  simpl in *. apply andb_true_iff in Hall as [Hfs Hds].
  rewrite update_files_unix by done.
  by rewrite (walk_dirs_unix (fun f => negb (has_byte CR (bytes f)))).
Qed.

(** X14: as the script stands, with the new module path equal to the old
    one, it changes the text of no file, but it may change line endings.
    After a run the tree has the same directories and file names; every
    file has the permissions it had and reads as it did (the same text, or
    the same failure); its bytes are the bytes it had, or the text read from
    it written with the line endings of the platform.  On POSIX a tree in
    which no file holds a carriage return is, byte for byte, the tree before
    the run. *)
Theorem update_imports_keeps_every_text (os : platform) (t : tree) :
  same_tree (same_text os) t (fst (update_imports_script os t)) /\
  (os = Posix ->
   every_file (fun f => negb (has_byte CR (bytes f))) t = true ->
   fst (update_imports_script os t) = t).
Proof.
  unfold update_imports_script, update_imports. cbn [fst]. split.
  - apply walk_same_text.
  - intros -> Hall. by apply walk_unix.
Qed.

(** ** What the script reports *)









End UpdateImports.


(** * More of the script, on the sample host *)

Section MoreOnSampleHost.
Existing Instance sample_host.

Lemma added_candles_wellformed_witness :
  price_history empty_db !! ("BTCUSDT", "1h", 1700000000000) =
    Some (PriceRow 100 110 90 105 50 1700000000000) \/
  ("1h" ∈ map fst timeframes /\
   created_at (PriceRow 100 110 90 105 50 1700000000000) = 1700000000000).
Proof.
  apply (added_candles_wellformed (H:=sample_host) example_world empty_db
           ("BTCUSDT", "1h", 1700000000000)
           (PriceRow (H:=sample_host) 100 110 90 105 50 1700000000000)).
  reflexivity.
Defined.

Lemma run_keeps_registry_rows_witness :
  exists r',
    cryptocurrencies (stored (snd (run example_world listed_db))) !! "BTCUSDT" = Some r' /\
    market_type r' = "Futures" /\ others r' = tt.
Proof.
  apply (run_keeps_registry_rows (H:=sample_host) example_world listed_db "BTCUSDT"
           (CryptoRow (H:=sample_host) (JStr "Old name") "Futures" (JStr "old.png")
                      false tt)).
  reflexivity.
Defined.

Lemma run_lists_universe_witness :
  exists nm img r,
    last_upsert "BTCUSDT" (upserts_of [btc]) = Some (nm, img) /\
    cryptocurrencies (stored (snd (run example_world empty_db))) !! "BTCUSDT" = Some r /\
    name r = nm /\ image_url r = img /\ active r = true /\
    (cryptocurrencies empty_db !! "BTCUSDT" = None -> market_type r = "Spot").
Proof.
  apply (run_lists_universe (H:=sample_host) example_world empty_db
           (snd (run example_world empty_db)) 200 (JArr [btc]) [btc] "BTCUSDT").
  - apply outcome_eta. reflexivity.
  - reflexivity.
  - reflexivity.
  - apply (bool_decide_unpack _). vm_compute. exact I.
Defined.

Lemma object_body_raises_type_error_witness :
  run rate_limited_world empty_db =
  (Raise TypeError, State [] empty_db empty_db [Requested Markets]).
Proof.
  apply (object_body_raises_type_error (H:=sample_host) rate_limited_world empty_db 429 "status"
           (JObj [("error_code", JInt 429)]) []).
  reflexivity.
Defined.

Lemma upsert_inserts_new_row_witness :
  exists s',
    reconcile_coin eth (init empty_db) = (Ok tt, s') /\
    cryptocurrencies (txn s') =
      <["ETHUSDT" := CryptoRow (JStr "Ethereum") "Spot" (JStr "") true tt]>
        (cryptocurrencies (txn (init empty_db))) /\
    price_history (txn s') = price_history (txn (init empty_db)) /\
    stored s' = stored (init empty_db) /\
    symbols s' = (symbols (init empty_db) ++ ["ETHUSDT"])%list.
Proof.
  apply (upsert_inserts_new_row (H:=sample_host) eth (init empty_db) "ETHUSDT"
           (JStr "Ethereum") (JStr "")); reflexivity.
Defined.

Lemma reconcile_touches_only_batch_symbols_witness :
  cryptocurrencies (txn (snd (reconcile (JArr [eth]) (init listed_db)))) !! "BTCUSDT" =
    cryptocurrencies (txn (init listed_db)) !! "BTCUSDT" /\
  price_history (txn (snd (reconcile (JArr [eth]) (init listed_db)))) =
    price_history (txn (init listed_db)).
Proof.
  apply (reconcile_touches_only_batch_symbols (H:=sample_host) [eth] (init listed_db)
           (snd (reconcile (JArr [eth]) (init listed_db))) "BTCUSDT").
  - apply outcome_eta. reflexivity.
  - apply (bool_decide_unpack _). vm_compute. exact I.
Defined.

Lemma short_candle_is_not_inserted_witness :
  exists e,
    import_candle "BTCUSDT" "1h" (JArr [JInt 1700000000000; JStr "100"]) (init empty_db) =
    (Raise e, init empty_db).
Proof.
  apply (short_candle_is_not_inserted (H:=sample_host) "BTCUSDT" "1h"
           [JInt 1700000000000; JStr "100"] (init empty_db)).
  simpl. lia.
Defined.

(** X12, run: the one coin of the example, listed twice in [symbols]:
    twelve requests, each followed by its pause. *)
Lemma pause_follows_each_request_witness :
  beats_of (log (snd (run example_world empty_db))) =
  [Call ("BTCUSDT", "1m"); Pause 200; Call ("BTCUSDT", "5m"); Pause 200;
   Call ("BTCUSDT", "15m"); Pause 200; Call ("BTCUSDT", "1h"); Pause 200;
   Call ("BTCUSDT", "4h"); Pause 200; Call ("BTCUSDT", "1d"); Pause 200;
   Call ("BTCUSDT", "1m"); Pause 200; Call ("BTCUSDT", "5m"); Pause 200;
   Call ("BTCUSDT", "15m"); Pause 200; Call ("BTCUSDT", "1h"); Pause 200;
   Call ("BTCUSDT", "4h"); Pause 200; Call ("BTCUSDT", "1d"); Pause 200].
Proof.
  destruct (pause_follows_each_request (H:=sample_host) example_world empty_db)
    as [_ Hdone].
  refine (eq_trans (Hdone (snd (run example_world empty_db)) _) _).
  - apply outcome_eta. reflexivity.
  - reflexivity.
Defined.

(** X12, a run that raises: the request that cannot be sent is the last
    event, and has no pause. *)
Example request_without_pause :
  fst (run cut_off_world empty_db) = Raise ConnectionError /\
  beats_of (log (snd (run cut_off_world empty_db))) =
    [Call ("BTCUSDT", "1m"); Pause 200; Call ("BTCUSDT", "5m")].
Proof. split; reflexivity. Qed.

Lemma reconcile_is_idempotent_witness :
  exists s2,
    reconcile (JArr [btc; eth]) (snd (reconcile (JArr [btc; eth]) (init empty_db))) =
      (Ok tt, s2) /\
    txn s2 = txn (snd (reconcile (JArr [btc; eth]) (init empty_db))) /\
    stored s2 = stored (snd (reconcile (JArr [btc; eth]) (init empty_db))).
Proof.
  apply (reconcile_is_idempotent (H:=sample_host) (JArr [btc; eth]) (init empty_db)
           (snd (reconcile (JArr [btc; eth]) (init empty_db)))).
  apply outcome_eta. reflexivity.
Defined.

Lemma second_import_writes_nothing_witness :
  exists s2,
    import_history example_world "BTCUSDT" ("1h", "1h")
      (snd (import_history example_world "BTCUSDT" ("1h", "1h") (init empty_db))) =
      (Ok tt, s2) /\
    txn s2 = txn (snd (import_history example_world "BTCUSDT" ("1h", "1h")
                         (init empty_db))) /\
    stored s2 = stored (snd (import_history example_world "BTCUSDT" ("1h", "1h")
                               (init empty_db))).
Proof.
  apply (second_import_writes_nothing (H:=sample_host) example_world "BTCUSDT"
           ("1h", "1h") (init empty_db)
           (snd (import_history example_world "BTCUSDT" ("1h", "1h") (init empty_db)))).
  apply outcome_eta. reflexivity.
Defined.


(** X14, run: a tree without a carriage return is left as it is on POSIX. *)
Lemma update_imports_keeps_every_text_witness :
  fst (update_imports_script Posix unix_tree) = unix_tree.
Proof.
  destruct (update_imports_keeps_every_text Posix unix_tree) as [_ Hsame].
  apply Hsame; reflexivity.
Defined.

(** The run on the sample tree.  On POSIX the file with carriage returns
    that holds the path comes out with line feeds; on Windows the files with
    line feeds that hold the path come out with carriage returns.  The
    files under vendor, the text file, the file that is not UTF-8 and the
    one that cannot be written keep their bytes. *)
Example sample_tree_run :
  update_imports_script Posix sample_tree =
  (Dir [("vendor", Dir [] [("dep.go", dos_source)]);
        ("cmd", Dir [("vendor", Dir [] [("x.go", go_source)])]
                    [("main.go", go_source);
                     ("dos.go",
                      SourceFile
                        ("package main" ++ String LF EmptyString ++
                         "// import github.com/growthfolio/go-priceguard-api/internal" ++
                         String LF EmptyString)
                        true true);
                     ("binary.go", SourceFile (String "255"%char (bytes go_source)) true true);
                     ("locked.go", SourceFile (bytes go_source) true false)])]
       [("README.md", go_source); ("other.go", SourceFile "package other" true true)],
   [Updating ["cmd"] "main.go"; Updating ["cmd"] "dos.go";
    ErrorProcessing ["cmd"] "binary.go";
    Updating ["cmd"] "locked.go"; ErrorProcessing ["cmd"] "locked.go";
    Complete]).
Proof. reflexivity. Qed.

Example sample_tree_run_windows :
  update_imports_script Windows sample_tree =
  (Dir [("vendor", Dir [] [("dep.go", dos_source)]);
        ("cmd", Dir [("vendor", Dir [] [("x.go", go_source)])]
                    [("main.go",
                      SourceFile
                        ("// import github.com/growthfolio/go-priceguard-api/internal" ++
                         String CR (String LF EmptyString))
                        true true);
                     ("dos.go", dos_source);
                     ("binary.go", SourceFile (String "255"%char (bytes go_source)) true true);
                     ("locked.go", SourceFile (bytes go_source) true false)])]
       [("README.md", go_source); ("other.go", SourceFile "package other" true true)],
   [Updating ["cmd"] "main.go"; Updating ["cmd"] "dos.go";
    ErrorProcessing ["cmd"] "binary.go";
    Updating ["cmd"] "locked.go"; ErrorProcessing ["cmd"] "locked.go";
    Complete]).
Proof. reflexivity. Qed.

End MoreOnSampleHost.
